(** * pymail: a shallow embedding of [mailer.py] (Excel -> Outlook mailer)

    The development follows the source file top to bottom: Python string
    helpers, the salutation builder, the contact loader, the signature
    resolver, the template renderer and the dispatch loop of [main].

    Text is modelled by [string]; a character [c : ascii] stands for the
    Unicode code point [N_of_ascii c] (the Latin-1 range, which holds the
    German letters the mailer is written for).  Within that range
    [str.strip], [str.lower] and case-insensitive matching are modelled
    exactly as CPython defines them. *)

From Stdlib Require Import Ascii String List ZArith Lia Bool.
From stdpp Require Import gmap strings list fin_maps pretty.

Local Open Scope string_scope.

(** ** Python string primitives *)

Module PyStr.

(** [str.isspace] on one code point below 256: TAB..CR, FS..US, SPACE,
    NEL (0x85) and NBSP (0xA0). *)
Definition isspace (c : ascii) : bool :=
  let n := N_of_ascii c in
  ((9 <=? n) && (n <=? 13) || (28 <=? n) && (n <=? 32)
   || (n =? 133) || (n =? 160))%N.

(** The simple lower-case mapping on code points below 256: A..Z and the
    Latin-1 capitals 0xC0..0xDE (but not the multiplication sign 0xD7). *)
Definition lower_char (c : ascii) : ascii :=
  let n := N_of_ascii c in
  if ((65 <=? n) && (n <=? 90)
      || (192 <=? n) && (n <=? 222) && negb (n =? 215))%N
  then ascii_of_N (n + 32) else c.

(** [s.lower()] *)
Fixpoint lower (s : string) : string :=
  match s with
  | "" => ""
  | String c s' => String (lower_char c) (lower s')
  end.

(** [bool(s)]: a string is truthy when it is not empty. *)
Definition truthy (s : string) : bool :=
  match s with "" => false | _ => true end.

(** [a or b] on strings. *)
Definition por (a b : string) : string := if truthy a then a else b.

(** [s.lstrip()] *)
Fixpoint lstrip (s : string) : string :=
  match s with
  | "" => ""
  | String c s' => if isspace c then lstrip s' else s
  end.

(** [s.rstrip()] *)
Fixpoint rstrip (s : string) : string :=
  match s with
  | "" => ""
  | String c s' =>
      match rstrip s' with
      | "" => if isspace c then "" else String c ""
      | r => String c r
      end
  end.

(** [s.strip()] *)
Definition strip (s : string) : string := lstrip (rstrip s).

(** [s.startswith(p)] *)
Fixpoint startswith (p s : string) : bool :=
  match p, s with
  | "", _ => true
  | String a p', String b s' => Ascii.eqb a b && startswith p' s'
  | String _ _, "" => false
  end.

(** [p in s] *)
Fixpoint contains (p s : string) : bool :=
  startswith p s ||
  match s with
  | "" => false
  | String _ s' => contains p s'
  end.

(** [sep.join(xs)] *)
Fixpoint join (sep : string) (xs : list string) : string :=
  match xs with
  | [] => ""
  | [x] => x
  | x :: rest => x +:+ sep +:+ join sep rest
  end.

(** [re.split] on a one-character class: the pieces between separators,
    empty pieces included. *)
Fixpoint split_on (issep : ascii -> bool) (s : string) : list string :=
  match s with
  | "" => [""]
  | String c s' =>
      if issep c then "" :: split_on issep s'
      else match split_on issep s' with
           | p :: ps => String c p :: ps
           | [] => [String c ""]
           end
  end.

End PyStr.

Import PyStr.

(** ** Hilfsfunktionen *)

(** [normalize(s)]: [(s or "").strip()] *)
Definition normalize (s : option string) : string :=
  strip (match s with Some v => por v "" | None => "" end).

(** ** Salutation builder *)

(** The nested helper [pick(fb)] of [build_anrede_brief]; the enclosing
    variable [t] (the trimmed title) is passed explicitly. *)
Definition pick (t fb : string) : string :=
  if negb (truthy t) then fb
  else
    let lower := lower t in
    if startswith "herr" lower || startswith "frau" lower then t
    else fb +:+ " " +:+ t.

Definition build_anrede_brief (anrede titel vorname nachname : string) : string :=
  let a := lower (normalize (Some anrede)) in
  let t := normalize (Some titel) in
  let ln := normalize (Some nachname) in
  let fn := strip (join " " (List.filter truthy
              [normalize (Some vorname); normalize (Some nachname)])) in
  if String.eqb a "herr" then
    strip ("Sehr geehrter " +:+ pick t "Herr" +:+ " " +:+ por ln fn)
  else if String.eqb a "frau" then
    strip ("Sehr geehrte " +:+ pick t "Frau" +:+ " " +:+ por ln fn)
  else if truthy fn then "Guten Tag " +:+ fn else "Guten Tag".

(** ** List fields *)

Definition is_list_sep (c : ascii) : bool :=
  Ascii.eqb c ";" || Ascii.eqb c ",".

(** [parse_list_field(val)] *)
Definition parse_list_field (val : string) : list string :=
  if negb (truthy val) then []
  else
    let parts := split_on is_list_sep val in
    map strip (List.filter (fun p => truthy (strip p)) parts).

(** ** Exceptions, events and the effect monad *)

(** Why [main] or [load_contacts] ends the process with [SystemExit]. *)
Inductive exit_reason :=
| ExcelNotFound (path : string)
| TemplateNotFound (path : string)
| SheetNotFound (sheet : string) (sheetnames : list string)
| NoContacts.

Inductive exn :=
| SystemExit (r : exit_reason)
| PyException (msg : string).   (* any subclass of Exception, with str(e) *)

Inductive outcome (A : Type) :=
| Ok (a : A)
| Raise (e : exn).
Arguments Ok {A} a.
Arguments Raise {A} e.

(** What an operation of the host (file system, COM) answers. *)
Inductive io_result (A : Type) :=
| IoOk (a : A)
| IoFail (msg : string).        (* raises an Exception with this text *)
Arguments IoOk {A} a.
Arguments IoFail {A} msg.

(** The Outlook mail item as [send_outlook] fills it. *)
Record MailItem := {
  mail_To : string;
  mail_CC : option string;        (* None: property never assigned *)
  mail_BCC : option string;
  mail_Subject : string;
  mail_HTMLBody : string;
  mail_Attachments : list string;
}.

(** The lines the program prints, by format string. *)
Inductive message :=
| DebugPaths (base_dir cwd excel template : string)
| WarnAttachment (p : string)           (* [WARN] Anhang nicht gefunden: {p} *)
| WarnDefaultSignature (e : string)     (* [WARN] Standardsignatur nicht gefunden: {e} *)
| WarnSignature (name e : string)       (* [WARN] Signatur '{args.sig}' nicht gefunden: {e} *)
| Info (contacts : nat) (template_name sig : string) (dry : bool)
| SkipNoSubject (email : string)        (* [SKIP] Kein Betreff fuer {email} ... *)
| DryRun (i : nat) (email subject cc bcc attach html : string)
| OkLine (i n : nat) (email : string)   (* [OK] {i}/{len(contacts)} -> {email} *)
| ErrLine (i n : nat) (email e : string)
| Summary (sent failed : nat).          (* Fertig. Gesendet: {sent}, Fehler: {failed} *)

Inductive event :=
| Stdout (m : message)
| Stderr (m : message)
| FsExists (p : string)
| FsIsFile (p : string)
| FsGlob (dir : string)
| FsStat (p : string)
| FsReadText (p : string)
| FsLoadWorkbook (p : string)
| ComCreateItem
| ComAttach (p : string)
| ComSend (m : MailItem)
| ComDisplay (m : MailItem)
| Sleep.

(** A computation: the events it performed, in order, and how it ended. *)
Definition M (A : Type) : Type := (list event * outcome A)%type.

Definition ret {A} (a : A) : M A := ([], Ok a).

Definition bind {A B} (m : M A) (f : A -> M B) : M B :=
  match m with
  | (t, Ok a) => let '(t', r) := f a in (app t t', r)
  | (t, Raise e) => (t, Raise e)
  end.

Definition emit (e : event) : M unit := ([e], Ok tt).

Definition raise {A} (e : exn) : M A := ([], Raise e).

(** [try: m except Exception as e: handler(str(e))] *)
Definition try_except {A} (m : M A) (handler : string -> M A) : M A :=
  match m with
  | (t, Raise (PyException msg)) => let '(t', r) := handler msg in (app t t', r)
  | other => other
  end.

Definition lift_io {A} (r : io_result A) : M A :=
  match r with
  | IoOk a => ret a
  | IoFail msg => raise (PyException msg)
  end.

Definition events {A} (m : M A) : list event := fst m.
Definition result {A} (m : M A) : outcome A := snd m.

Declare Scope py_scope.
Delimit Scope py_scope with py.
Notation "'let*' x ':=' c1 'in' c2" := (bind c1 (fun x => c2))
  (at level 10, x name, c1 at level 100, c2 at level 200) : py_scope.
Notation "c1 ;; c2" := (bind c1 (fun _ => c2))
  (at level 100, c2 at level 200, right associativity) : py_scope.
Local Open Scope py_scope.

(** ** The host: file system, libraries and Outlook *)

Abbreviation record := (gmap string string).

(** A spreadsheet cell as openpyxl yields it with [values_only=True]. *)
Inductive cell :=
| CNone                      (* blank cell *)
| CStr (s : string)
| CInt (z : Z)
| CBool (b : bool)
| COther (shown : string).   (* float, datetime, ...: with the text str() gives *)

Definition row := list cell.
Definition worksheet := list row.               (* list(ws.iter_rows(values_only=True)) *)
Definition workbook := list (string * worksheet).  (* the sheets, in order, by name *)

(** Paths are strings in canonical form; [mkpath] is [pathlib.Path(s)]. *)
Record World := {
  base_dir : string;                               (* BASE_DIR *)
  cwd : string;                                    (* pathlib.Path.cwd() *)
  getenv_APPDATA : option string;                  (* os.environ *)
  mkpath : string -> string;
  joinpath : string -> string -> string;           (* the / of pathlib *)
  is_absolute : string -> bool;
  path_resolve : string -> string;
  path_name : string -> string;
  path_exists : string -> bool;
  path_is_file : string -> bool;
  glob_htm : string -> list string;                (* dir.glob("*.htm") *)
  stat_mtime : string -> io_result Z;              (* f.stat().st_mtime, on a
                                                      discrete clock *)
  read_text : string -> io_result string;
  load_workbook : string -> io_result workbook;    (* openpyxl *)
  jinja_render : string -> record -> io_result string;  (* jinja2: Template(text).render of ctx *)
  re_template : string -> io_result (string -> string);
      (* re: a replacement holding a backslash, parsed against the
         signature pattern; maps the matched text to its replacement *)
  outlook_create : io_result unit;                 (* Dispatch + CreateItem(0) *)
  outlook_attach : string -> io_result unit;       (* mail.Attachments.Add *)
  outlook_submit : MailItem -> bool -> io_result unit;  (* Display(False) / Send() *)
}.

Section Program.

Variable w : World.

Definition fs_exists (p : string) : M bool :=
  emit (FsExists p) ;; ret (path_exists w p).

Definition fs_is_file (p : string) : M bool :=
  emit (FsIsFile p) ;; ret (path_is_file w p).

Definition fs_read_text (p : string) : M string :=
  emit (FsReadText p) ;; lift_io (read_text w p).

(** ** Pfad-Utilities *)

Definition resolve_path (p : option string) (default_name : string) : string :=
  match p with
  | Some s =>
      if truthy s then
        let pp := mkpath w s in
        if is_absolute w pp then pp else joinpath w (cwd w) pp
      else joinpath w (base_dir w) default_name
  | None => joinpath w (base_dir w) default_name
  end.

Definition read_subject (arg : option string) : M string :=
  match arg with
  | None => ret ""
  | Some a =>
      if negb (truthy a) then ret ""
      else
        let p := mkpath w a in
        let* ex := fs_exists p in
        let* isf := (if ex then fs_is_file p else ret false) in
        if isf then (let* s := fs_read_text p in ret (strip s))
        else ret (strip a)
  end.

(** ** Contact loader *)

(** [str(v)] of a cell value *)
Definition py_str (v : cell) : string :=
  match v with
  | CNone => "None"
  | CStr s => s
  | CInt z => pretty z
  | CBool true => "True"
  | CBool false => "False"
  | COther s => s
  end.

(** [normalize(str(h)).lower()] *)
Definition header_key (h : cell) : string :=
  lower (normalize (Some (py_str h))).

(** [headers[i] if i < len(headers) else f"spalte_{i+1}"] *)
Definition column_key (headers : list string) (i : nat) : string :=
  match headers !! i with
  | Some k => k
  | None => "spalte_" +:+ pretty (i + 1)%nat
  end.

(** [normalize(str(v)) if v is not None else ""] *)
Definition cell_text (v : cell) : string :=
  match v with
  | CNone => ""
  | _ => normalize (Some (py_str v))
  end.

(** The inner loop [for i, v in enumerate(r): rec[key] = ...], from
    column [i] on. *)
Fixpoint fill_record (headers : list string) (i : nat) (r : row) (rec : record)
  : record :=
  match r with
  | [] => rec
  | v :: r' =>
      fill_record headers (S i) r' (<[column_key headers i := cell_text v]> rec)
  end.

Definition build_record (headers : list string) (r : row) : record :=
  fill_record headers 0 r ∅.

(** [rec.get(k, d)] *)
Definition rec_get (rec : record) (k d : string) : string :=
  match rec !! k with Some v => v | None => d end.

(** The outer loop [for r in rows[1:]], appending to [data]. *)
Fixpoint load_rows (headers : list string) (rs : list row) (data : list record)
  : list record :=
  match rs with
  | [] => data
  | r :: rs' =>
      let rec := build_record headers r in
      load_rows headers rs'
        (if truthy (rec_get rec "email" "") then (data ++ [rec])%list else data)
  end.

(** From [rows = list(ws.iter_rows(values_only=True))] on. *)
Definition load_sheet (rows : worksheet) : list record :=
  match rows with
  | hs :: r1 :: rest => load_rows (map header_key hs) (r1 :: rest) []
  | _ => []                                   (* len(rows) < 2 *)
  end.

Fixpoint find_sheet (name : string) (wb : workbook) : option worksheet :=
  match wb with
  | [] => None
  | (n, ws) :: wb' => if String.eqb n name then Some ws else find_sheet name wb'
  end.

Definition select_sheet (wb : workbook) (sheet : option string) : outcome worksheet :=
  let first :=
    match wb with
    | (_, ws) :: _ => Ok ws
    | [] => Raise (PyException "list index out of range")
    end in
  match sheet with
  | Some s =>
      if truthy s then
        match find_sheet s wb with
        | Some ws => Ok ws
        | None => Raise (SystemExit (SheetNotFound s (map fst wb)))
        end
      else first
  | None => first
  end.

Definition load_contacts (xlsx_path : string) (sheet : option string)
  : M (list record) :=
  emit (FsLoadWorkbook xlsx_path) ;;
  let* wb := lift_io (load_workbook w xlsx_path) in
  match select_sheet wb sheet with
  | Ok ws => ret (load_sheet ws)
  | Raise e => raise e
  end.

(** ** Signature resolver *)

Definition find_signature_dir : string :=
  let appdata := match getenv_APPDATA w with Some v => v | None => "" end in
  joinpath w (joinpath w (mkpath w appdata) "Microsoft") "Signatures".

Definition read_signature (sig_name : string) : M string :=
  let p := joinpath w find_signature_dir (sig_name +:+ ".htm") in
  let* ex := fs_exists p in
  if ex then fs_read_text p
  else raise (PyException p).                  (* FileNotFoundError(p) *)

(** The keys [f.stat().st_mtime] of the candidates, taken in order. *)
Fixpoint stat_all (fs : list string) : M (list (Z * string)) :=
  match fs with
  | [] => ret []
  | f :: fs' =>
      emit (FsStat f) ;;
      let* t := lift_io (stat_mtime w f) in
      let* rest := stat_all fs' in
      ret ((t, f) :: rest)
  end.

(** [sorted(..., reverse=True)] is stable: among equal keys the earlier
    element stays first. *)
Fixpoint insert_desc (x : Z * string) (l : list (Z * string)) : list (Z * string) :=
  match l with
  | [] => [x]
  | y :: l' => if (fst y <=? fst x)%Z then x :: l else y :: insert_desc x l'
  end.

Definition sorted_desc (l : list (Z * string)) : list (Z * string) :=
  foldr insert_desc [] l.

Definition read_default_signature : M string :=
  let sig_dir := find_signature_dir in
  let* ex := fs_exists sig_dir in
  if negb ex then raise (PyException sig_dir)  (* FileNotFoundError(sig_dir) *)
  else
    emit (FsGlob sig_dir) ;;
    let* keyed := stat_all (glob_htm w sig_dir) in
    match sorted_desc keyed with
    | [] => raise (PyException "Keine .htm-Signatur gefunden")
    | (_, f) :: _ => fs_read_text f
    end.

(** The block "Signatur bereitstellen" of [main]. *)
Definition main_signature (sig_arg : string) : M string :=
  if String.eqb (lower sig_arg) "auto" then
    try_except read_default_signature
      (fun e => emit (Stderr (WarnDefaultSignature e)) ;; ret "")
  else if String.eqb (lower sig_arg) "none" then ret ""
  else
    try_except (read_signature sig_arg)
      (fun e => emit (Stderr (WarnSignature sig_arg e)) ;; ret "").

(** ** Template renderer *)

(** [ch] of the text matches the literal [p] of a pattern compiled with
    [re.I]: both have the same lower-case form. *)
Definition match_ci (p ch : ascii) : bool :=
  Ascii.eqb (lower_char ch) (lower_char p).

Fixpoint startswith_ci (p s : string) : bool :=
  match p, s with
  | "", _ => true
  | String a p', String b s' => match_ci a b && startswith_ci p' s'
  | String _ _, "" => false
  end.

(** The pattern [<!--signature-->|<!--SIGNATURE-->] with [flags=re.I]
    matches at the head of [s]; every match is 16 characters long. *)
Definition sig_pattern_matches (s : string) : bool :=
  startswith_ci "<!--signature-->" s || startswith_ci "<!--SIGNATURE-->" s.

(** The scan of [re.sub] with count 0: leftmost matches, none overlapping;
    [skip] counts the characters of a match still to be passed over. *)
Fixpoint sub_scan (repl : string -> string) (skip : nat) (s : string) : string :=
  match s with
  | "" => ""
  | String c s' =>
      match skip with
      | S k => sub_scan repl k s'
      | O =>
          if sig_pattern_matches s
          then repl (substring 0 16 s) +:+ sub_scan repl 15 s'
          else String c (sub_scan repl 0 s')
      end
  end.

(** [re.sub(pattern, repl, html, flags=re.I)] for the signature pattern.
    A replacement without backslash is inserted as it is; one with a
    backslash is a template that [re] parses first. *)
Definition re_sub_signature (repl html : string) : M string :=
  if contains "\" repl then
    let* f := lift_io (re_template w repl) in
    ret (sub_scan f 0 html)
  else ret (sub_scan (fun _ => repl) 0 html).

Definition render_html (template_path : string) (context : record)
    (signature_html : string) : M string :=
  let* text := fs_read_text (mkpath w template_path) in
  let* html := lift_io (jinja_render w text context) in
  if truthy signature_html then
    if contains "<!--SIGNATURE-->" html || contains "<!--signature-->" html
    then re_sub_signature signature_html html
    else ret (html +:+ "<br>" +:+ signature_html)
  else ret html.

(** ** Mail transport *)

(** [add_attachments(mail, field_value)]; returns what [mail.Attachments]
    holds afterwards, starting from [acc]. *)
Fixpoint add_paths (paths : list string) (acc : list string) : M (list string) :=
  match paths with
  | [] => ret acc
  | p :: paths' =>
      let fp := mkpath w p in
      let* ex := fs_exists fp in
      let* isf := (if ex then fs_is_file fp else ret false) in
      if isf then
        emit (ComAttach fp) ;;
        lift_io (outlook_attach w fp) ;;
        add_paths paths' (acc ++ [fp])%list
      else
        emit (Stderr (WarnAttachment p)) ;;
        add_paths paths' acc
  end.

Definition add_attachments (field_value : string) : M (list string) :=
  add_paths (parse_list_field field_value) [].

Definition send_outlook (to_addr subject html cc bcc attachments : string)
    (display : bool) : M unit :=
  emit ComCreateItem ;;
  lift_io (outlook_create w) ;;
  let* atts := (if truthy attachments then add_attachments attachments
                else ret []) in
  let mail := {| mail_To := to_addr;
                 mail_CC := if truthy cc then Some cc else None;
                 mail_BCC := if truthy bcc then Some bcc else None;
                 mail_Subject := subject;
                 mail_HTMLBody := html;
                 mail_Attachments := atts |} in
  emit (if display then ComDisplay mail else ComSend mail) ;;
  lift_io (outlook_submit w mail display).

(** ** Main *)

Record Args := {
  arg_excel : string;
  arg_sheet : option string;
  arg_subject : option string;
  arg_template : string;
  arg_sig : string;
  arg_dry : bool;
  arg_display : bool;
  (* -throttle is a float; the pause appears as the event [Sleep] *)
}.

(** The fixed part of the render context. *)
Definition base_context (c : record) : record :=
  let email := rec_get c "email" "" in
  let ctx : record :=
    <["Titel" := rec_get c "titel" ""]>
    (<["Firma" := rec_get c "firma" ""]>
    (<["Nachname" := rec_get c "nachname" ""]>
    (<["Vorname" := rec_get c "vorname" ""]>
    (<["Anrede" := rec_get c "anrede" ""]>
    (<["Email" := email]> ∅))))) in
  <["AnredeBrief" :=
      build_anrede_brief (rec_get ctx "Anrede" "") (rec_get ctx "Titel" "")
        (rec_get ctx "Vorname" "") (rec_get ctx "Nachname" "")]> ctx.

(** [for k, v in c.items(): if k.lower() not in {kk.lower() for kk in ctx}:
    ctx[k] = v].  The keys of a loaded record are lower-case and distinct,
    so the order of the traversal does not show in the result. *)
Definition merge_columns (c ctx : record) : record :=
  map_fold (fun k v (acc : record) =>
              if bool_decide (lower k ∈ (set_map lower (dom acc) : gset string))
              then acc else <[k := v]> acc) ctx c.

Definition build_context (c : record) : record :=
  merge_columns c (base_context c).

Section Loop.

Variable args : Args.
Variable template_path : string.
Variable global_subject : string.
Variable signature_html : string.
Variable total : nat.                            (* len(contacts) *)

(** One turn of [for i, c in enumerate(contacts, start=1)], on the
    counters [(sent, failed)]. *)
Definition main_row (i : nat) (c : record) (st : nat * nat) : M (nat * nat) :=
  let '(sent, failed) := st in
  let email := rec_get c "email" "" in
  if negb (truthy email) then ret st
  else
    let row_subject := strip (rec_get c "betreff" "") in
    let subject := por row_subject global_subject in
    if negb (truthy subject) && negb (arg_dry args) then
      emit (Stderr (SkipNoSubject email)) ;;
      ret (sent, S failed)
    else
      let ctx := build_context c in
      let* html := render_html template_path ctx signature_html in
      let cc_raw := rec_get c "cc" "" in
      let bcc_raw := rec_get c "bcc" "" in
      let attach_raw := por (rec_get c "anhangpfad" "") (rec_get c "anhang" "") in
      if arg_dry args then
        emit (Stdout (DryRun i email (por subject "(leer)") cc_raw bcc_raw
                        attach_raw html)) ;;
        ret st
      else
        let* st' :=
          try_except
            (send_outlook email subject html cc_raw bcc_raw attach_raw
               (arg_display args) ;;
             emit (Stdout (OkLine i total email)) ;;
             ret (S sent, failed))
            (fun e =>
               emit (Stderr (ErrLine i total email e)) ;;
               ret (sent, S failed)) in
        emit Sleep ;;
        ret st'.

Fixpoint main_loop (i : nat) (contacts : list record) (st : nat * nat)
  : M (nat * nat) :=
  match contacts with
  | [] => ret st
  | c :: rest =>
      let* st' := main_row i c st in
      main_loop (S i) rest st'
  end.

End Loop.

Definition main (args : Args) : M unit :=
  let excel_path := resolve_path (Some (arg_excel args)) "Kundenliste.xlsx" in
  let template_path := resolve_path (Some (arg_template args)) "mail_template.html" in
  emit (Stdout (DebugPaths (base_dir w) (cwd w) (path_resolve w excel_path)
                  (path_resolve w template_path))) ;;
  let* ex := fs_exists excel_path in
  if negb ex then raise (SystemExit (ExcelNotFound (path_resolve w excel_path)))
  else
  let* tx := fs_exists template_path in
  if negb tx then raise (SystemExit (TemplateNotFound (path_resolve w template_path)))
  else
  let* global_subject :=
    (match arg_subject args with
     | Some s => if truthy s then read_subject (Some s) else ret ""
     | None => ret ""
     end) in
  let* contacts := load_contacts excel_path (arg_sheet args) in
  match contacts with
  | [] => raise (SystemExit NoContacts)
  | _ =>
      let* signature_html := main_signature (arg_sig args) in
      emit (Stdout (Info (length contacts) (path_name w template_path)
                      (if String.eqb (lower (arg_sig args)) "auto" then "auto"
                       else arg_sig args)
                      (arg_dry args))) ;;
      let* st := main_loop args template_path global_subject signature_html
                   (length contacts) 1 contacts (0, 0)%nat in
      if negb (arg_dry args)
      then emit (Stdout (Summary (fst st) (snd st)))
      else ret tt
  end.

End Program.

(** ** The wording of the specification, for comparison with the code *)

(** "full_name joins the non-empty parts of first_name and last_name with
    a single space" *)
Definition full_name (first_name last_name : string) : string :=
  match truthy first_name, truthy last_name with
  | true, true => first_name +:+ " " +:+ last_name
  | true, false => first_name
  | false, _ => last_name
  end.

(** The greeting rule table as the specification words it; [pick] is its
    TitlePrefix. *)
Definition spec_formal_greeting (gender title first_name last_name : string)
  : string :=
  let g := lower (strip gender) in
  let t := strip title in
  let f := strip first_name in
  let l := strip last_name in
  let name := if truthy l then l else full_name f l in
  if String.eqb g "herr" then "Sehr geehrter " +:+ pick t "Herr" +:+ " " +:+ name
  else if String.eqb g "frau" then "Sehr geehrte " +:+ pick t "Frau" +:+ " " +:+ name
  else if truthy (full_name f l) then "Guten Tag " +:+ full_name f l
  else "Guten Tag".

(** The same table, except that a greeting without any name ends right
    after the title prefix. *)
Definition formal_greeting (gender title first_name last_name : string)
  : string :=
  let g := lower (strip gender) in
  let t := strip title in
  if negb (truthy (strip first_name)) && negb (truthy (strip last_name)) then
    if String.eqb g "herr" then "Sehr geehrter " +:+ pick t "Herr"
    else if String.eqb g "frau" then "Sehr geehrte " +:+ pick t "Frau"
    else "Guten Tag"
  else spec_formal_greeting gender title first_name last_name.

(** The title opens with a salutation keyword, in any case. *)
Definition has_salutation (t : string) : bool :=
  startswith "herr" (lower t) || startswith "frau" (lower t).

(** What follows the title prefix in a formal greeting. *)
Definition name_tail (first_name last_name : string) : string :=
  let name := por (strip last_name)
                (full_name (strip first_name) (strip last_name)) in
  if truthy name then " " +:+ name else "".

(** The header naming as the specification words it: a column whose
    header is missing (a blank cell, or none at all) or repeats an earlier
    header gets the positional name "column_<n>". *)
Definition spec_column_key (hs : row) (i : nat) : string :=
  match hs !! i with
  | None | Some CNone => "column_" +:+ pretty (i + 1)%nat
  | Some h =>
      if bool_decide (header_key h ∈ map header_key (take i hs))
      then "column_" +:+ pretty (i + 1)%nat
      else header_key h
  end.

(** The filter of the loader: [rec.get("email", "")] is truthy. *)
Definition has_email (rec : record) : bool := truthy (rec_get rec "email" "").

(** ** A host for worked examples

    [files] are the text files that exist; templates hold no placeholders
    and render to themselves; Outlook accepts every call. *)
Fixpoint lookup_file (files : list (string * string)) (p : string) : option string :=
  match files with
  | [] => None
  | (n, t) :: files' => if String.eqb n p then Some t else lookup_file files' p
  end.

Definition sample_host (files : list (string * string)) (wb : workbook) : World := {|
  base_dir := "/app";
  cwd := "/work";
  getenv_APPDATA := Some "/appdata";
  mkpath := fun p => p;
  joinpath := fun a b => a +:+ "/" +:+ b;
  is_absolute := startswith "/";
  path_resolve := fun p => p;
  path_name := fun p => p;
  path_exists := fun p => match lookup_file files p with Some _ => true | None => false end;
  path_is_file := fun p => match lookup_file files p with Some _ => true | None => false end;
  glob_htm := fun _ => [];
  stat_mtime := fun _ => IoOk 0%Z;
  read_text := fun p => match lookup_file files p with Some t => IoOk t | None => IoFail p end;
  load_workbook := fun _ => IoOk wb;
  jinja_render := fun text _ => IoOk text;
  re_template := fun _ => IoFail "bad escape";
  outlook_create := IoOk tt;
  outlook_attach := fun _ => IoOk tt;
  outlook_submit := fun _ _ => IoOk tt;
|}.

(** Command lines for the worked examples: no global subject, no
    signature, the default file names. *)
Definition sample_args (dry : bool) : Args := {|
  arg_excel := "Kundenliste.xlsx";
  arg_sheet := None;
  arg_subject := None;
  arg_template := "mail_template.html";
  arg_sig := "none";
  arg_dry := dry;
  arg_display := false;
|}.

(** The signature marker occurs somewhere in [s], in any letter case. *)
Fixpoint contains_ci (s : string) : bool :=
  sig_pattern_matches s ||
  match s with
  | "" => false
  | String _ s' => contains_ci s'
  end.

(** [re.sub] with a replacement that holds no backslash. *)
Definition sub_all (sig s : string) : string := sub_scan (fun _ => sig) 0 s.

Fixpoint drop_chars (n : nat) (s : string) : string :=
  match n, s with
  | S k, String _ s' => drop_chars k s'
  | _, _ => s
  end.

(** "replace the first case-insensitive occurrence" of the marker *)
Fixpoint replace_first_ci (sig s : string) : option string :=
  if sig_pattern_matches s then Some (sig +:+ drop_chars 16 s)
  else match s with
       | "" => None
       | String c s' => option_map (String c) (replace_first_ci sig s')
       end.

(** The splice as the specification words it: the first marker gives way
    to the signature; without a marker the signature follows a line
    break. *)
Definition spec_render_signature (body sig : string) : string :=
  match replace_first_ci sig body with
  | Some out => out
  | None => body +:+ "<br>" +:+ sig
  end.

(** The events that reach the mail transport. *)
Definition is_transport (e : event) : bool :=
  match e with
  | ComCreateItem | ComAttach _ | ComSend _ | ComDisplay _ => true
  | _ => false
  end.

(** The events that submit a mail whose subject is empty. *)
Definition sends_without_subject (e : event) : bool :=
  match e with
  | ComSend m | ComDisplay m => negb (truthy (mail_Subject m))
  | _ => false
  end.

(** A text that is not empty and ends in no white space. *)
Definition rtrimmed (s : string) : Prop := s <> "" /\ rstrip s = s.

(** ** Predicates for the further properties *)

(** No character of [s] separates list fields. *)
Fixpoint no_list_sep (s : string) : bool :=
  match s with
  | "" => true
  | String c s' => negb (is_list_sep c) && no_list_sep s'
  end.

(** A piece as [parse_list_field] returns it: not empty, trimmed, free of
    separators. *)
Definition clean_piece (p : string) : Prop :=
  p <> "" /\ strip p = p /\ no_list_sep p = true.

(** The events that hand a mail to Outlook for sending or display. *)
Definition is_submit (e : event) : bool :=
  match e with
  | ComSend _ | ComDisplay _ => true
  | _ => false
  end.

(** The lines written to standard error. *)
Definition is_stderr (e : event) : bool :=
  match e with
  | Stderr _ => true
  | _ => false
  end.

(** The events that only look at the file system. *)
Definition is_fs (e : event) : bool :=
  match e with
  | FsExists _ | FsIsFile _ | FsGlob _ | FsStat _ | FsReadText _
  | FsLoadWorkbook _ => true
  | _ => false
  end.

(** A submission of the wrong kind for the display flag: a direct send
    although [display] is set, or a display although it is not. *)
Definition wrong_submit (display : bool) (e : event) : bool :=
  match e with
  | ComSend _ => display
  | ComDisplay _ => negb display
  | _ => false
  end.

(** The lower-case forms of the names [main] puts into every render
    context. *)
Definition context_names : gset string :=
  {[ "email"; "anrede"; "vorname"; "nachname"; "firma"; "titel"; "anredebrief" ]}.

(** A host whose signature folder holds the files [sigs], each with its
    modification time and text, in the order the folder lists them. *)
Definition signature_host (sigs : list (string * Z * string)) : World := {|
  base_dir := "/app";
  cwd := "/work";
  getenv_APPDATA := Some "/appdata";
  mkpath := fun p => p;
  joinpath := fun a b => a +:+ "/" +:+ b;
  is_absolute := startswith "/";
  path_resolve := fun p => p;
  path_name := fun p => p;
  path_exists := fun _ => true;
  path_is_file := fun _ => true;
  glob_htm := fun _ => map (fun s => fst (fst s)) sigs;
  stat_mtime := fun f =>
    match List.find (fun s => String.eqb (fst (fst s)) f) sigs with
    | Some s => IoOk (snd (fst s))
    | None => IoFail f
    end;
  read_text := fun f =>
    match List.find (fun s => String.eqb (fst (fst s)) f) sigs with
    | Some s => IoOk (snd s)
    | None => IoFail f
    end;
  load_workbook := fun _ => IoOk [];
  jinja_render := fun text _ => IoOk text;
  re_template := fun _ => IoFail "bad escape";
  outlook_create := IoOk tt;
  outlook_attach := fun _ => IoOk tt;
  outlook_submit := fun _ _ => IoOk tt;
|}.

(** * Properties *)

(** ** Strings *)

Section StringFacts.

#[local] Arguments String.append !_ _ / : simpl nomatch.

Lemma por_empty s : por s "" = s.
Proof. by destruct s. Qed.

Lemma normalize_Some s : normalize (Some s) = strip s.
Proof. unfold normalize. by rewrite por_empty. Qed.

Lemma rstrip_cons c s :
  rstrip (String c s) =
  match rstrip s with
  | "" => if isspace c then "" else String c ""
  | r => String c r
  end.
Proof. reflexivity. Qed.

Lemma rstrip_idem s : rstrip (rstrip s) = rstrip s.
Proof.
  induction s as [|c s IH]; [done|].
  rewrite rstrip_cons. destruct (rstrip s) as [|d r] eqn:E.
  - destruct (isspace c) eqn:Hc; [done|].
    rewrite rstrip_cons. simpl. by rewrite Hc.
  - rewrite rstrip_cons, IH. done.
Qed.

Lemma lstrip_idem s : lstrip (lstrip s) = lstrip s.
Proof.
  induction s as [|c s IH]; [done|]. simpl.
  destruct (isspace c) eqn:Hc; [done|]. simpl. by rewrite Hc.
Qed.

Lemma lstrip_rstrip s : lstrip (rstrip s) = rstrip (lstrip s).
Proof.
  induction s as [|c s IH]; [done|].
  rewrite rstrip_cons. simpl lstrip at 2.
  destruct (isspace c) eqn:Hc.
  - destruct (rstrip s) as [|d r] eqn:E.
    + by rewrite <- IH.
    + simpl. by rewrite Hc.
  - rewrite rstrip_cons. destruct (rstrip s) as [|d r]; simpl; by rewrite Hc.
Qed.

Lemma strip_idem s : strip (strip s) = strip s.
Proof.
  unfold strip.
  rewrite (lstrip_rstrip s), rstrip_idem, (lstrip_rstrip (lstrip s)).
  by rewrite lstrip_idem.
Qed.

Lemma strip_fix_rstrip s : strip s = s -> rstrip s = s.
Proof.
  unfold strip. intros H. rewrite <- H at 1.
  by rewrite lstrip_rstrip, rstrip_idem, <- lstrip_rstrip.
Qed.

Lemma strip_fix_lstrip s : strip s = s -> lstrip s = s.
Proof. unfold strip. intros H. rewrite <- H at 1. by rewrite lstrip_idem. Qed.

Lemma strip_of_fixed s : lstrip s = s -> rstrip s = s -> strip s = s.
Proof. unfold strip. by intros H1 ->. Qed.

Lemma append_nil_r s : s +:+ "" = s.
Proof. induction s; simpl; congruence. Qed.

Lemma append_eq_nil (a b : string) : a +:+ b = "" -> a = "" /\ b = "".
Proof. by destruct a. Qed.

Lemma rstrip_app x y :
  rstrip (x +:+ y) =
  match rstrip y with "" => rstrip x | r => x +:+ r end.
Proof.
  induction x as [|c x IH]; simpl String.append.
  - by destruct (rstrip y).
  - rewrite !rstrip_cons, IH. destruct (rstrip y) as [|d r] eqn:E; [done|].
    by destruct x.
Qed.

Lemma lstrip_app x y : x <> "" -> lstrip x = x -> lstrip (x +:+ y) = x +:+ y.
Proof.
  destruct x as [|c x]; [done|]. intros _. simpl.
  destruct (isspace c) eqn:Hc; [|done].
  intros H. exfalso.
  assert (Hlen : String.length (lstrip x) <= String.length x).
  { clear. induction x as [|d x IH]; simpl; [lia|].
    destruct (isspace d); simpl; lia. }
  rewrite H in Hlen. simpl in Hlen. lia.
Qed.

(** Gluing two trimmed, non-empty texts with any middle part gives a
    trimmed text. *)
Lemma strip_app3 x m y :
  x <> "" -> y <> "" -> strip x = x -> strip y = y ->
  strip (x +:+ m +:+ y) = x +:+ m +:+ y.
Proof.
  intros Hx Hy Sx Sy. apply strip_of_fixed.
  - apply lstrip_app; [done|by apply strip_fix_lstrip].
  - rewrite !rstrip_app, (strip_fix_rstrip y Sy).
    destruct y as [|c y]; [done|]. by destruct m.
Qed.

(** Case folding does not touch white space. *)
Lemma isspace_lower_char c : isspace (lower_char c) = isspace c.
Proof. by destruct c as [[] [] [] [] [] [] [] []]. Qed.

Lemma lower_lstrip s : lower (lstrip s) = lstrip (lower s).
Proof.
  induction s as [|c s IH]; [done|]. simpl.
  rewrite isspace_lower_char. by destruct (isspace c).
Qed.

Lemma lower_rstrip s : lower (rstrip s) = rstrip (lower s).
Proof.
  induction s as [|c s IH]; [done|]. simpl lower at 2.
  rewrite !rstrip_cons, <- IH, isspace_lower_char.
  destruct (rstrip s); simpl; by destruct (isspace c).
Qed.

Lemma lower_strip s : lower (strip s) = strip (lower s).
Proof. unfold strip. by rewrite lower_lstrip, lower_rstrip. Qed.

Lemma truthy_true s : truthy s = true -> s <> "".
Proof. by destruct s. Qed.

End StringFacts.

(** ** Salutation builder *)

Section Salutation.

#[local] Arguments String.append !_ _ / : simpl nomatch.

Lemma rtrimmed_app x y : rtrimmed y -> rtrimmed (x +:+ y).
Proof.
  intros [Hy Ry]. split.
  - intros [_ ?]%append_eq_nil. done.
  - rewrite rstrip_app, Ry. by destruct y.
Qed.

Lemma rtrimmed_strip s : s <> "" -> strip s = s -> rtrimmed s.
Proof. intros ? ?. split; [done|by apply strip_fix_rstrip]. Qed.

Lemma rtrimmed_pick t fb : rtrimmed fb -> strip t = t -> rtrimmed (pick t fb).
Proof.
  intros Hfb Ht. unfold pick.
  destruct t as [|c t]; [done|]. cbn [truthy negb].
  assert (rtrimmed (String c t)) by by apply rtrimmed_strip.
  destruct (_ || _); [done|]. by do 2 apply rtrimmed_app.
Qed.

Lemma strip_rtrimmed c s :
  isspace c = false -> rtrimmed (String c s) -> strip (String c s) = String c s.
Proof. intros Hc [_ R]. unfold strip. rewrite R. simpl. by rewrite Hc. Qed.

(** The effect of the final [.strip()] on a greeting line. *)
Lemma strip_greeting c x P name :
  isspace c = false -> rtrimmed P -> strip name = name ->
  strip (String c x +:+ P +:+ " " +:+ name) =
  if truthy name then String c x +:+ P +:+ " " +:+ name else String c x +:+ P.
Proof.
  intros Hc HP Hn. destruct name as [|d name]; cbn [truthy].
  - change (" " +:+ "") with " ".
    assert (HR : rtrimmed (String c x +:+ P)) by by apply rtrimmed_app.
    unfold strip. rewrite rstrip_app.
    assert (rstrip (P +:+ " ") = P) as ->.
    { rewrite rstrip_app. simpl. apply HP. }
    destruct HP as [HP _]. destruct P as [|e P]; [done|].
    simpl. by rewrite Hc.
  - apply (strip_rtrimmed c (x +:+ P +:+ " " +:+ String d name) Hc).
    change (rtrimmed (String c x +:+ P +:+ " " +:+ String d name)).
    do 3 apply rtrimmed_app. by apply rtrimmed_strip.
Qed.

Lemma join_full_name v n :
  strip v = v -> strip n = n ->
  strip (join " " (List.filter truthy [v; n])) = full_name v n.
Proof.
  intros Hv Hn. unfold full_name.
  destruct v as [|c v], n as [|d n]; simpl; try done.
  by apply (strip_app3 (String c v) " " (String d n)).
Qed.

Lemma build_anrede_brief_unfold anrede titel vorname nachname :
  build_anrede_brief anrede titel vorname nachname =
  let a := lower (strip anrede) in
  let t := strip titel in
  let name := por (strip nachname)
                (full_name (strip vorname) (strip nachname)) in
  if String.eqb a "herr" then
    "Sehr geehrter " +:+ pick t "Herr" +:+ name_tail vorname nachname
  else if String.eqb a "frau" then
    "Sehr geehrte " +:+ pick t "Frau" +:+ name_tail vorname nachname
  else if truthy (full_name (strip vorname) (strip nachname))
       then "Guten Tag " +:+ full_name (strip vorname) (strip nachname)
       else "Guten Tag".
Proof.
  unfold build_anrede_brief, name_tail. rewrite !normalize_Some.
  rewrite join_full_name by apply strip_idem.
  set (name := por _ _).
  assert (Hname : strip name = name).
  { unfold name, por, full_name.
    pose proof (strip_idem vorname). pose proof (strip_idem nachname).
    by destruct (strip nachname), (strip vorname). }
  assert (HP : forall fb, rtrimmed fb -> rtrimmed (pick (strip titel) fb)).
  { intros fb Hfb. apply rtrimmed_pick; [done|apply strip_idem]. }
  cbv zeta.
  destruct (String.eqb _ "herr").
  { rewrite (strip_greeting "S" "ehr geehrter " _ name eq_refl); [|by apply HP|done].
    destruct (truthy name); [done|]. by rewrite append_nil_r. }
  destruct (String.eqb _ "frau").
  { rewrite (strip_greeting "S" "ehr geehrte " _ name eq_refl); [|by apply HP|done].
    destruct (truthy name); [done|]. by rewrite append_nil_r. }
  done.
Qed.

(** C3 (as amended): the greeting follows the rule table of the
    specification -- "Sehr geehrter"/"Sehr geehrte" with the title prefix
    and the last name (or else the full name), "Guten Tag" with the full
    name otherwise -- except that, when both names are empty, the final
    trim removes the blank after the title prefix. *)
Theorem build_anrede_brief_greeting gender title first_name last_name :
  build_anrede_brief gender title first_name last_name =
  formal_greeting gender title first_name last_name.
Proof.
  rewrite build_anrede_brief_unfold.
  unfold formal_greeting, spec_formal_greeting, name_tail, por, full_name.
  cbv zeta.
  destruct (strip first_name) as [|c f], (strip last_name) as [|d l];
    cbn [truthy negb andb];
    repeat (destruct (String.eqb _ _); [by rewrite ?append_nil_r|]); done.
Qed.

(** C3, counterexample: for a male contact without any name the code
    returns "Sehr geehrter Herr", the rule table as worded a text ending in
    a blank. *)
Lemma build_anrede_brief_no_trailing_blank :
  build_anrede_brief "Herr" "" "" "" = "Sehr geehrter Herr" /\
  spec_formal_greeting "Herr" "" "" "" = "Sehr geehrter Herr " /\
  build_anrede_brief "Herr" "" "" "" <> spec_formal_greeting "Herr" "" "" "".
Proof. by vm_compute. Qed.

(** C4: a title that already opens with "Herr" or "Frau" (in any case) is
    used as it is, for every default salutation word, so the greeting
    reads salutation phrase, title, name; and an empty title yields the
    default word unchanged. *)
Theorem pick_never_doubles_salutation gender title first_name last_name :
  has_salutation (normalize (Some title)) = true ->
  (forall fb, pick "" fb = fb) /\
  (forall fb, pick (normalize (Some title)) fb = normalize (Some title)) /\
  build_anrede_brief gender title first_name last_name =
    if String.eqb (lower (strip gender)) "herr" then
      "Sehr geehrter " +:+ normalize (Some title) +:+ name_tail first_name last_name
    else if String.eqb (lower (strip gender)) "frau" then
      "Sehr geehrte " +:+ normalize (Some title) +:+ name_tail first_name last_name
    else build_anrede_brief gender title first_name last_name.
Proof.
  intros Hkw.
  assert (Hpick : forall fb, pick (normalize (Some title)) fb = normalize (Some title)).
  { intros fb. unfold pick. unfold has_salutation in Hkw. rewrite Hkw.
    destruct (normalize (Some title)); [done|done]. }
  split; [done|]. split; [done|].
  rewrite build_anrede_brief_unfold. cbv zeta.
  rewrite normalize_Some in Hpick. rewrite normalize_Some, !Hpick.
  destruct (String.eqb _ "herr"); [done|]. by destruct (String.eqb _ "frau").
Qed.

Lemma pick_never_doubles_salutation_witness :
  has_salutation (normalize (Some " herr Dr. ")) = true /\
  pick (normalize (Some " herr Dr. ")) "Herr" = "herr Dr." /\
  build_anrede_brief "HERR" " herr Dr. " "Max" "Muster" =
    "Sehr geehrter herr Dr. Muster".
Proof.
  split; [reflexivity|].
  destruct (pick_never_doubles_salutation "HERR" " herr Dr. " "Max" "Muster"
              eq_refl) as (_ & Hp & Hg).
  split; [exact (Hp "Herr")|exact Hg].
Defined.

End Salutation.

(** ** Contact loader *)

Section Loader.

Implicit Types (headers : list string) (r : row) (rec : record).

Lemma cell_text_trimmed v : strip (cell_text v) = cell_text v.
Proof. destruct v; simpl; rewrite ?normalize_Some; by rewrite ?strip_idem. Qed.

Lemma fill_record_other headers i r rec k :
  (forall j v, r !! j = Some v -> column_key headers (i + j) <> k) ->
  fill_record headers i r rec !! k = rec !! k.
Proof.
  revert i rec. induction r as [|v r IH]; intros i rec Hne; [done|].
  simpl. rewrite IH.
  - apply lookup_insert_ne. specialize (Hne 0%nat v eq_refl).
    by rewrite Nat.add_0_r in Hne.
  - intros j v' Hj. specialize (Hne (S j) v' Hj).
    by rewrite Nat.add_succ_r in Hne.
Qed.

(** The last column of the row that carries the key decides its value. *)
Lemma fill_record_last headers i r rec j v k :
  r !! j = Some v ->
  column_key headers (i + j) = k ->
  (forall j' v', j < j' -> r !! j' = Some v' -> column_key headers (i + j') <> k) ->
  fill_record headers i r rec !! k = Some (cell_text v).
Proof.
  revert i rec j. induction r as [|v0 r IH]; intros i rec j Hj Hk Hlast; [done|].
  destruct j as [|j]; simpl.
  - injection Hj as ->. rewrite Nat.add_0_r in Hk. rewrite fill_record_other.
    + subst k. apply lookup_insert_eq.
    + intros j' v' Hj'. rewrite Nat.add_succ_l, <- Nat.add_succ_r.
      apply (Hlast (S j') v'); [lia|done].
  - apply (IH (S i) _ j); [done|by rewrite Nat.add_succ_l, <- Nat.add_succ_r|].
    intros j' v' Hlt Hj'. rewrite Nat.add_succ_l, <- Nat.add_succ_r.
    apply (Hlast (S j') v'); [lia|done].
Qed.

Lemma fill_record_trimmed headers i r rec :
  (forall k v, rec !! k = Some v -> strip v = v) ->
  forall k v, fill_record headers i r rec !! k = Some v -> strip v = v.
Proof.
  revert i rec. induction r as [|v0 r IH]; intros i rec Hrec; [done|].
  simpl. apply IH. intros k v [[_ <-]|[_ Hk]]%lookup_insert_Some.
  - apply cell_text_trimmed.
  - by apply (Hrec k).
Qed.

Lemma fill_record_dom headers i r rec k :
  is_Some (fill_record headers i r rec !! k) <->
  is_Some (rec !! k) \/ exists j, j < length r /\ column_key headers (i + j) = k.
Proof.
  revert i rec. induction r as [|v0 r IH]; intros i rec; simpl.
  - split; [by left|]. intros [?|(j & ? & _)]; [done|lia].
  - rewrite IH, lookup_insert_is_Some. split.
    + intros [[Heq|[_ ?]]|(j & Hj & Hk)].
      * right. exists 0%nat. split; [lia|by rewrite Nat.add_0_r].
      * by left.
      * right. exists (S j). split; [lia|by rewrite Nat.add_succ_r].
    + intros [?|(j & Hj & Hk)].
      * left. destruct (decide (column_key headers i = k)); [by left|by right].
      * destruct j as [|j].
        -- left. left. by rewrite Nat.add_0_r in Hk.
        -- right. exists j. split; [lia|by rewrite Nat.add_succ_r in Hk].
Qed.

Lemma load_rows_filter headers rs data :
  load_rows headers rs data =
  (data ++ List.filter has_email (map (build_record headers) rs))%list.
Proof.
  revert data. induction rs as [|r rs IH]; intros data; simpl.
  - by rewrite app_nil_r.
  - rewrite IH. fold (has_email (build_record headers r)).
    destruct (has_email _); [by rewrite <- app_assoc|done].
Qed.

(** The loader keeps, in order, the records of the data rows that hold a
    non-empty email. *)
Lemma load_sheet_rows hs rows :
  load_sheet (hs :: rows) =
  List.filter has_email (map (build_record (map header_key hs)) rows).
Proof.
  destruct rows as [|r rows]; [done|].
  unfold load_sheet. by rewrite load_rows_filter.
Qed.

Lemma load_sheet_In rec ws :
  In rec (load_sheet ws) ->
  exists hs rows r, ws = hs :: rows /\ In r rows /\
    rec = build_record (map header_key hs) r /\ has_email rec = true.
Proof.
  destruct ws as [|hs rows]; [done|]. rewrite load_sheet_rows.
  intros [Hin Hem]%filter_In. apply in_map_iff in Hin as (r & <- & Hr).
  by exists hs, rows, r.
Qed.

Lemma header_key_lower h1 h2 :
  lower (py_str h1) = lower (py_str h2) -> header_key h1 = header_key h2.
Proof.
  intros H. unfold header_key. by rewrite !normalize_Some, !lower_strip, H.
Qed.

Lemma build_record_email rec r headers :
  rec = build_record headers r -> has_email rec = true ->
  exists e, rec !! "email" = Some e /\ e <> "" /\ strip e = e.
Proof.
  intros -> Hem. unfold has_email, rec_get in Hem.
  destruct (build_record headers r !! "email") as [e|] eqn:He; [|done].
  exists e. split; [done|]. split; [by apply truthy_true|].
  apply (fill_record_trimmed headers 0 r ∅) with "email"; [|done].
  intros k v. by rewrite lookup_empty.
Qed.

(** C5: every record the loader returns holds an email that is not empty
    and is trimmed; a data row whose email cell is blank, or holds only
    white space, is left out whatever its other cells hold; and header rows
    that differ only in letter case load the same records. *)
Theorem load_contacts_email_nonempty (w : World) :
  (forall path sheet recs rec,
     result (load_contacts w path sheet) = Ok recs -> In rec recs ->
     exists e, rec !! "email" = Some e /\ e <> "" /\ strip e = e) /\
  (forall hs before r after j v,
     column_key (map header_key hs) j = "email" ->
     r !! j = Some v -> cell_text v = "" ->
     (forall j' v', j < j' -> r !! j' = Some v' ->
                    column_key (map header_key hs) j' <> "email") ->
     load_sheet (hs :: before ++ r :: after) = load_sheet (hs :: before ++ after)) /\
  (forall hs1 hs2 rows,
     Forall2 (fun a b => lower (py_str a) = lower (py_str b)) hs1 hs2 ->
     load_sheet (hs1 :: rows) = load_sheet (hs2 :: rows)).
Proof.
  split; [|split].
  - intros path sheet recs rec Hres Hin.
    unfold load_contacts, result, bind, emit, lift_io, ret, raise in Hres.
    destruct (load_workbook w path) as [wb|msg]; simpl in Hres; [|done].
    destruct (select_sheet wb sheet) as [ws|e]; simpl in Hres; [|done].
    injection Hres as <-.
    apply load_sheet_In in Hin as (hs & rows & r & _ & _ & Hrec & Hem).
    by apply (build_record_email rec r (map header_key hs)).
  - intros hs before r after j v Hk Hj Hblank Hlast.
    rewrite !load_sheet_rows, !map_app, !List.filter_app. simpl.
    assert (has_email (build_record (map header_key hs) r) = false) as ->; [|done].
    unfold has_email, rec_get, build_record.
    rewrite (fill_record_last _ 0 r ∅ j v "email"); [by rewrite Hblank|done..].
  - intros hs1 hs2 rows HF. rewrite !load_sheet_rows.
    assert (map header_key hs1 = map header_key hs2) as ->; [|done].
    induction HF as [|a b l1 l2 Hab _ IH]; [done|]. simpl.
    by rewrite IH, (header_key_lower a b Hab).
Qed.

Lemma load_contacts_email_nonempty_witness :
  (exists e, ({[ "email" := "a@x.com"; "nachname" := "Muller" ]} : record) !! "email"
             = Some e /\ e <> "" /\ strip e = e) /\
  load_sheet ([CStr "EMAIL"; CStr "Nachname"]
                :: [[CStr "a@x.com"; CStr "Muller"]]
                ++ [CStr "  "; CStr "Meier"] :: []) =
  load_sheet ([CStr "EMAIL"; CStr "Nachname"]
                :: [[CStr "a@x.com"; CStr "Muller"]] ++ []) /\
  load_sheet [[CStr "EMAIL"]; [CStr "a@x.com"]] =
  load_sheet [[CStr "email"]; [CStr "a@x.com"]].
Proof.
  pose (wb := [("Kunden", [[CStr "EMAIL"; CStr "Nachname"];
                           [CStr "a@x.com"; CStr "Muller"];
                           [CStr "  "; CStr "Meier"]])] : workbook).
  destruct (load_contacts_email_nonempty (sample_host [] wb)) as (H1 & H2 & H3).
  split; [|split].
  - apply (H1 "Kundenliste.xlsx" None
             [{[ "email" := "a@x.com"; "nachname" := "Muller" ]}]).
    + vm_compute. reflexivity.
    + left. reflexivity.
  - apply (H2 _ _ _ _ 0%nat (CStr "  ")); [reflexivity..|].
    intros [|[|j']] v' Hlt Hj'; [lia| |discriminate].
    vm_compute. discriminate.
  - apply H3. repeat constructor.
Defined.

(** C6 (as amended): the first row gives the headers, each filled header
    cell read as its trimmed, lower-cased text; a column beyond the header
    row gets the positional key "spalte_<n>", n counting from 1; and a
    record has exactly the keys of its row's columns, so columns with one
    header name share one key and none of them is renamed. *)
Theorem load_contacts_column_keys :
  (forall hs rows,
     load_sheet (hs :: rows) =
     List.filter has_email (map (build_record (map header_key hs)) rows)) /\
  (forall hs i h,
     hs !! i = Some h -> h <> CNone ->
     column_key (map header_key hs) i = lower (strip (py_str h))) /\
  (forall hs i,
     length hs <= i ->
     column_key (map header_key hs) i = "spalte_" +:+ pretty (i + 1)%nat) /\
  (forall headers r k,
     is_Some (build_record headers r !! k) <->
     exists i, i < length r /\ column_key headers i = k).
Proof.
  split; [apply load_sheet_rows|]. split; [|split].
  - intros hs i h Hi _. unfold column_key.
    rewrite list_lookup_fmap, Hi. simpl.
    unfold header_key. by rewrite normalize_Some.
  - intros hs i Hi. unfold column_key.
    rewrite list_lookup_fmap, (lookup_ge_None_2 hs i); [done|lia].
  - intros headers r k. unfold build_record. rewrite fill_record_dom.
    rewrite lookup_empty. split.
    + intros [[? ?]|?]; [done|done].
    + intros ?. by right.
Qed.

Lemma load_contacts_column_keys_witness :
  column_key (map header_key [CStr " E-Mail "; CStr "Name"]) 0 = "e-mail" /\
  column_key (map header_key [CStr " E-Mail "; CStr "Name"]) 2 = "spalte_3" /\
  is_Some (build_record ["email"] [CStr "a@x.com"; CInt 7] !! "spalte_2").
Proof.
  destruct load_contacts_column_keys as (_ & H2 & H3 & H4).
  split; [|split].
  - apply (H2 [CStr " E-Mail "; CStr "Name"] 0%nat (CStr " E-Mail "));
      [reflexivity|discriminate].
  - apply (H3 [CStr " E-Mail "; CStr "Name"] 2%nat). simpl. lia.
  - apply H4. exists 1%nat. split; [simpl; lia|reflexivity].
Defined.

(** C6, counterexample: of two columns headed "Email" and "email" the
    second keeps the key "email" -- the wording asks for "column_2" -- and
    the loaded record holds that one key only. *)
Lemma duplicate_header_not_renamed :
  column_key (map header_key [CStr "Email"; CStr "email"]) 1 = "email" /\
  spec_column_key [CStr "Email"; CStr "email"] 1 = "column_2" /\
  load_sheet [[CStr "Email"; CStr "email"]; [CStr "a@x.com"; CStr "b@x.com"]]
    = [ {[ "email" := "b@x.com" ]} ] /\
  column_key (map header_key [CStr "Email"; CStr "email"]) 1
    <> spec_column_key [CStr "Email"; CStr "email"] 1.
Proof. by vm_compute. Qed.

(** C9: every loaded record is built from a data row, and maps a column
    key to the cell of the rightmost column of that row that carries the
    key; the cells of earlier columns with the same key do not show.  For
    a row as wide as the header row: a name that heads several columns is
    mapped to the cell under the rightmost of them. *)
Theorem duplicate_header_rightmost_wins hs rows rec :
  In rec (load_sheet (hs :: rows)) ->
  exists r, In r rows /\ rec = build_record (map header_key hs) r /\
    (forall j v k,
       r !! j = Some v ->
       column_key (map header_key hs) j = k ->
       (forall j' v', j < j' -> r !! j' = Some v' ->
                      column_key (map header_key hs) j' <> k) ->
       rec !! k = Some (cell_text v)) /\
    (forall j h,
       length r = length hs ->
       hs !! j = Some h ->
       (forall j' h', j < j' -> hs !! j' = Some h' -> header_key h' <> header_key h) ->
       exists v, r !! j = Some v /\ rec !! header_key h = Some (cell_text v)).
Proof.
  intros (hs' & rows' & r & Heq & Hr & Hrec & _)%load_sheet_In.
  injection Heq as <- <-. exists r. split; [done|]. split; [done|].
  assert (Hgen : forall j v k,
    r !! j = Some v ->
    column_key (map header_key hs) j = k ->
    (forall j' v', j < j' -> r !! j' = Some v' ->
                   column_key (map header_key hs) j' <> k) ->
    rec !! k = Some (cell_text v)).
  { intros j v k Hj Hk Hlast. subst rec.
    by apply (fill_record_last _ 0 r ∅ j v k). }
  split; [done|].
  intros j h Hlen Hj Hlast. unfold row in *.
  destruct (lookup_lt_is_Some_2 r j) as [v Hv].
  { rewrite Hlen. by apply lookup_lt_Some in Hj. }
  exists v. split; [done|]. apply (Hgen j v); [done| |].
  - unfold column_key. by rewrite list_lookup_fmap, Hj.
  - intros j' v' Hlt Hj'.
    destruct (lookup_lt_is_Some_2 hs j') as [h' Hh'].
    { rewrite <- Hlen. by apply lookup_lt_Some in Hj'. }
    unfold column_key. rewrite list_lookup_fmap, Hh'. simpl.
    by apply (Hlast j' h').
Qed.

Lemma duplicate_header_rightmost_wins_witness :
  ({[ "email" := "b@x.com"; "name" := "Muller" ]} : record) !! "email"
  = Some "b@x.com".
Proof.
  destruct (duplicate_header_rightmost_wins
              [CStr "Email"; CStr "Name"; CStr "EMAIL "]
              [[CStr "a@x.com"; CStr "Muller"; CStr "b@x.com"]]
              {[ "email" := "b@x.com"; "name" := "Muller" ]})
    as (r & Hr & _ & _ & Hlast).
  - vm_compute. left. reflexivity.
  - destruct Hr as [<-|[]].
    destruct (Hlast 2%nat (CStr "EMAIL ")) as (v & [= <-] & Hv);
      [reflexivity..| |exact Hv].
    intros [|[|[|j']]] h' Hlt Hj'; try lia. discriminate.
Defined.

End Loader.

(** ** Effects *)

Section Effects.

Lemma events_bind {A B} (m : M A) (f : A -> M B) :
  events (bind m f) =
  (events m ++ match result m with Ok a => events (f a) | Raise _ => [] end)%list.
Proof.
  destruct m as [t [a|e]]; simpl; [|by rewrite app_nil_r].
  by destruct (f a).
Qed.

Lemma result_bind {A B} (m : M A) (f : A -> M B) :
  result (bind m f) =
  match result m with Ok a => result (f a) | Raise e => Raise e end.
Proof. destruct m as [t [a|e]]; simpl; [|done]. by destruct (f a). Qed.

(** A handler that ends normally turns every [Exception] into a normal end. *)
Lemma try_except_result {A} (m : M A) (h : string -> M A) :
  (forall r, result m <> Raise (SystemExit r)) ->
  (forall msg, exists a, result (h msg) = Ok a) ->
  exists a, result (try_except m h) = Ok a.
Proof.
  intros Hm Hh. destruct m as [t [a|[r|msg]]]; simpl in *.
  - by exists a.
  - by destruct (Hm r).
  - destruct (Hh msg) as [a Ha]. exists a. by destruct (h msg).
Qed.

End Effects.

(** ** Signature resolver *)

Section Signature.

Variable w : World.

Lemma stat_all_no_exit fs r : result (stat_all w fs) <> Raise (SystemExit r).
Proof.
  induction fs as [|f fs IH]; [done|].
  cbn [stat_all]. rewrite !result_bind. cbn [emit result snd].
  destruct (stat_mtime w f) as [t|msg]; cbn [lift_io ret raise result snd]; [|done].
  rewrite result_bind.
  destruct (result (stat_all w fs)) as [rest|e] eqn:E; [done|].
  intros [= ->]. by apply IH.
Qed.

Lemma fs_read_text_no_exit p r : result (fs_read_text w p) <> Raise (SystemExit r).
Proof. unfold fs_read_text, result, bind, emit, lift_io. by destruct (read_text w p). Qed.

Lemma read_default_signature_no_exit r :
  result (read_default_signature w) <> Raise (SystemExit r).
Proof.
  unfold read_default_signature, fs_exists. repeat (rewrite result_bind; cbn [emit ret raise result snd lift_io]).
  destruct (path_exists w _); cbn [negb]; [|done]. repeat (rewrite result_bind; cbn [emit ret raise result snd lift_io]).
  destruct (result (stat_all w _)) as [keyed|e] eqn:E.
  - destruct (sorted_desc keyed) as [|[t f] l]; [done|]. apply fs_read_text_no_exit.
  - intros [= ->]. by apply (stat_all_no_exit _ r) in E.
Qed.

Lemma read_signature_no_exit name r :
  result (read_signature w name) <> Raise (SystemExit r).
Proof.
  unfold read_signature, fs_exists. repeat (rewrite result_bind; cbn [emit ret raise result snd lift_io]).
  destruct (path_exists w _); [apply fs_read_text_no_exit|done].
Qed.

(** C7: resolving the signature never ends the run -- the block of [main]
    always returns a signature.  In mode auto an absent signature folder,
    or one without .htm files, leaves a warning and the empty signature;
    so does a named signature whose file is absent; and mode none gives
    the empty signature without any event, so without file access. *)
Theorem main_signature_never_aborts :
  (forall sig_arg, exists s, result (main_signature w sig_arg) = Ok s) /\
  (forall sig_arg,
     lower sig_arg = "auto" ->
     path_exists w (find_signature_dir w) = false ->
     main_signature w sig_arg =
       ([FsExists (find_signature_dir w);
         Stderr (WarnDefaultSignature (find_signature_dir w))], Ok "")) /\
  (forall sig_arg,
     lower sig_arg = "auto" ->
     path_exists w (find_signature_dir w) = true ->
     glob_htm w (find_signature_dir w) = [] ->
     main_signature w sig_arg =
       ([FsExists (find_signature_dir w); FsGlob (find_signature_dir w);
         Stderr (WarnDefaultSignature "Keine .htm-Signatur gefunden")], Ok "")) /\
  (forall sig_arg,
     lower sig_arg <> "auto" -> lower sig_arg <> "none" ->
     path_exists w (joinpath w (find_signature_dir w) (sig_arg +:+ ".htm")) = false ->
     main_signature w sig_arg =
       ([FsExists (joinpath w (find_signature_dir w) (sig_arg +:+ ".htm"));
         Stderr (WarnSignature sig_arg
                   (joinpath w (find_signature_dir w) (sig_arg +:+ ".htm")))],
        Ok "")) /\
  (forall sig_arg,
     lower sig_arg = "none" -> main_signature w sig_arg = ([], Ok "")).
Proof.
  split; [|split; [|split; [|split]]].
  - intros sig_arg. unfold main_signature.
    destruct (String.eqb _ "auto").
    { apply try_except_result; [apply read_default_signature_no_exit|].
      intros msg. by exists "". }
    destruct (String.eqb _ "none"); [by exists ""|].
    apply try_except_result; [apply read_signature_no_exit|].
    intros msg. by exists "".
  - intros sig_arg Hauto Hdir. unfold main_signature, read_default_signature.
    rewrite Hauto. simpl. by rewrite Hdir.
  - intros sig_arg Hauto Hdir Hglob. unfold main_signature, read_default_signature.
    rewrite Hauto. simpl. by rewrite Hdir, Hglob.
  - intros sig_arg Hauto Hnone Hfile. unfold main_signature, read_signature.
    apply String.eqb_neq in Hauto as ->. apply String.eqb_neq in Hnone as ->.
    simpl. by rewrite Hfile.
  - intros sig_arg Hnone. unfold main_signature. by rewrite Hnone.
Qed.

End Signature.

Lemma main_signature_never_aborts_witness :
  (exists s, result (main_signature (sample_host [] []) "Auto") = Ok s) /\
  main_signature (sample_host [] []) "Auto" =
    ([FsExists "/appdata/Microsoft/Signatures";
      Stderr (WarnDefaultSignature "/appdata/Microsoft/Signatures")], Ok "") /\
  main_signature (sample_host [("/appdata/Microsoft/Signatures", "")] []) "AUTO" =
    ([FsExists "/appdata/Microsoft/Signatures";
      FsGlob "/appdata/Microsoft/Signatures";
      Stderr (WarnDefaultSignature "Keine .htm-Signatur gefunden")], Ok "") /\
  main_signature (sample_host [] []) "Firma" =
    ([FsExists "/appdata/Microsoft/Signatures/Firma.htm";
      Stderr (WarnSignature "Firma" "/appdata/Microsoft/Signatures/Firma.htm")],
     Ok "") /\
  main_signature (sample_host [] []) "None" = ([], Ok "").
Proof.
  split; [apply main_signature_never_aborts|].
  split; [by apply main_signature_never_aborts|].
  split; [by apply main_signature_never_aborts|].
  split; [by apply main_signature_never_aborts|].
  by apply main_signature_never_aborts.
Defined.

(** ** Template renderer *)

Section Renderer.

#[local] Arguments String.append !_ _ / : simpl nomatch.

Variable w : World.

(** Rendering touches the host once, to read the template. *)
Lemma render_html_events template_path context sig :
  events (render_html w template_path context sig)
  = [FsReadText (mkpath w template_path)].
Proof.
  unfold render_html, fs_read_text, re_sub_signature.
  unfold bind, emit, lift_io, ret, raise, events.
  destruct (read_text w _) as [text|msg]; simpl; [|done].
  destruct (jinja_render w text context) as [html|msg]; simpl; [|done].
  destruct (truthy sig); [|done].
  destruct (_ || _); [|done].
  destruct (contains "\" sig); [|done].
  by destruct (re_template w sig).
Qed.

Lemma render_html_expanded template_path context sig text body :
  read_text w (mkpath w template_path) = IoOk text ->
  jinja_render w text context = IoOk body ->
  render_html w template_path context sig =
  bind (emit (FsReadText (mkpath w template_path)))
    (fun _ =>
       if truthy sig then
         if contains "<!--SIGNATURE-->" body || contains "<!--signature-->" body
         then re_sub_signature w sig body
         else ret (body +:+ "<br>" +:+ sig)
       else ret body).
Proof.
  intros Ht Hb. unfold render_html, fs_read_text, bind, emit, lift_io.
  rewrite Ht. cbn [ret]. rewrite Hb. cbn [ret app].
  by destruct (if truthy sig then _ else _) as [t o].
Qed.

(** C10: with the empty signature the renderer returns the expanded
    template itself: nothing is appended, no line break either, and a
    marker that the body holds is still there. *)
Theorem render_html_empty_signature template_path context text body :
  read_text w (mkpath w template_path) = IoOk text ->
  jinja_render w text context = IoOk body ->
  render_html w template_path context "" =
    ([FsReadText (mkpath w template_path)], Ok body) /\
  forall out, result (render_html w template_path context "") = Ok out ->
    out = body /\ contains_ci out = contains_ci body.
Proof.
  intros Ht Hb. rewrite (render_html_expanded _ _ _ _ _ Ht Hb).
  split; [done|]. by intros out [= <-].
Qed.

End Renderer.

Lemma render_html_empty_signature_witness :
  render_html (sample_host [("t.html", "<p>Hallo</p><!--SIGNATURE-->")] [])
    "t.html" ∅ ""
  = ([FsReadText "t.html"], Ok "<p>Hallo</p><!--SIGNATURE-->").
Proof.
  apply (render_html_empty_signature
           (sample_host [("t.html", "<p>Hallo</p><!--SIGNATURE-->")] [])
           "t.html" ∅ "<p>Hallo</p><!--SIGNATURE-->" "<p>Hallo</p><!--SIGNATURE-->");
    reflexivity.
Defined.

(** ** The signature marker *)

Section Marker.

#[local] Arguments String.append !_ _ / : simpl nomatch.

Lemma match_ci_refl a : match_ci a a = true.
Proof. unfold match_ci. apply Ascii.eqb_refl. Qed.

(** A text that starts with the pattern exactly also matches it without
    regard to case. *)
Lemma startswith_ci_exact p s : startswith p s = true -> startswith_ci p s = true.
Proof.
  revert s. induction p as [|a p IH]; intros [|b s]; simpl; try done.
  intros [Hab Hps]%andb_true_iff. apply Ascii.eqb_eq in Hab as ->.
  by rewrite match_ci_refl, IH.
Qed.

Lemma contains_ci_exact s :
  contains "<!--SIGNATURE-->" s || contains "<!--signature-->" s = true ->
  contains_ci s = true.
Proof.
  induction s as [|c s IH].
  - by vm_compute.
  - cbn [contains contains_ci]. unfold sig_pattern_matches.
    intros H.
    destruct (startswith "<!--SIGNATURE-->" (String c s)) eqn:E1.
    { by rewrite (startswith_ci_exact _ _ E1), orb_true_r. }
    destruct (startswith "<!--signature-->" (String c s)) eqn:E2.
    { by rewrite (startswith_ci_exact _ _ E2). }
    rewrite IH; [by rewrite orb_true_r|]. by rewrite !orb_false_l in H.
Qed.

(** A case variant of a pattern matches it. *)
Lemma startswith_ci_lower p m rest :
  lower m = lower p -> startswith_ci p (m +:+ rest) = true.
Proof.
  revert m. induction p as [|a p IH]; intros [|b m]; simpl; try done.
  intros [= Hab Hm]. rewrite (IH m Hm), andb_true_r.
  unfold match_ci. rewrite Hab. apply Ascii.eqb_refl.
Qed.

(** A match of a pattern that holds no "<" cannot run into a following
    "<". *)
Lemma startswith_ci_before_lt p pre rest :
  (forall i c, String.get i p = Some c -> match_ci c "<" = false) ->
  startswith_ci p (pre +:+ String "<" rest) = true ->
  startswith_ci p pre = true.
Proof.
  revert pre. induction p as [|a p IH]; intros pre Hp; [done|].
  destruct pre as [|b pre]; simpl.
  - by rewrite (Hp 0%nat a eq_refl).
  - intros [Hab Hrest]%andb_true_iff. rewrite Hab. simpl.
    apply IH; [|done]. intros i c Hi. by apply (Hp (S i) c).
Qed.

Lemma startswith_ci_cons a p b s :
  startswith_ci (String a p) (String b s) = match_ci a b && startswith_ci p s.
Proof. reflexivity. Qed.

Lemma sig_pattern_before_lt c pre rest :
  sig_pattern_matches (String c pre +:+ String "<" rest) = true ->
  sig_pattern_matches (String c pre) = true.
Proof.
  unfold sig_pattern_matches.
  change (String c pre +:+ String "<" rest)
    with (String c (pre +:+ String "<" rest)).
  rewrite !startswith_ci_cons.
  intros [[Hc H]%andb_true_iff|[Hc H]%andb_true_iff]%orb_true_iff;
    rewrite Hc; cbn [andb].
  - rewrite (startswith_ci_before_lt "!--signature-->" pre rest); [done| |done].
    intros i a Hi.
    do 15 (destruct i as [|i]; [cbn in Hi; by injection Hi as <-|]). done.
  - rewrite (startswith_ci_before_lt "!--SIGNATURE-->" pre rest);
      [by rewrite orb_true_r| |done].
    intros i a Hi.
    do 15 (destruct i as [|i]; [cbn in Hi; by injection Hi as <-|]). done.
Qed.

(** The scan copies a stretch without marker up to the next "<". *)
Lemma sub_scan_prefix repl pre rest :
  contains_ci pre = false ->
  sub_scan repl 0 (pre +:+ String "<" rest)
  = pre +:+ sub_scan repl 0 (String "<" rest).
Proof.
  induction pre as [|c pre IH]; [done|].
  cbn [contains_ci]. intros [Hm Hpre]%orb_false_iff.
  change (String c pre +:+ String "<" rest)
    with (String c (pre +:+ String "<" rest)).
  cbn [sub_scan].
  change (String c (pre +:+ String "<" rest))
    with (String c pre +:+ String "<" rest).
  destruct (sig_pattern_matches (String c pre +:+ String "<" rest)) eqn:E.
  - apply sig_pattern_before_lt in E. congruence.
  - simpl. by rewrite IH.
Qed.

Lemma sub_scan_skip repl x rest :
  sub_scan repl (String.length x) (x +:+ rest) = sub_scan repl 0 rest.
Proof.
  induction x as [|c x IH]; [done|]. simpl. by rewrite IH.
Qed.

Lemma length_lower s : String.length (lower s) = String.length s.
Proof. induction s; simpl; congruence. Qed.

Lemma lower_char_lt c : lower_char c = "<"%char -> c = "<"%char.
Proof. by destruct c as [[] [] [] [] [] [] [] []]. Qed.

(** At a marker the scan writes the replacement and goes on behind it. *)
Lemma sub_scan_marker repl m rest :
  lower m = "<!--signature-->" ->
  sub_scan repl 0 (m +:+ rest)
  = repl (substring 0 16 (m +:+ rest)) +:+ sub_scan repl 0 rest.
Proof.
  intros Hm.
  pose proof (startswith_ci_lower "<!--signature-->" m rest Hm) as Hs.
  pose proof (length_lower m) as Hlen. rewrite Hm in Hlen. simpl in Hlen.
  destruct m as [|c m]; [done|].
  change (String c m +:+ rest) with (String c (m +:+ rest)) in *.
  cbn [sub_scan]. unfold sig_pattern_matches. rewrite Hs. cbn [orb].
  injection Hlen as Hlen. rewrite Hlen. by rewrite sub_scan_skip.
Qed.

Lemma sub_all_no_marker sig s : contains_ci s = false -> sub_all sig s = s.
Proof.
  unfold sub_all. induction s as [|c s IH]; [done|].
  cbn [contains_ci]. intros [Hm Hs]%orb_false_iff.
  cbn [sub_scan]. rewrite Hm. by rewrite IH.
Qed.

(** The first marker gives way to the signature, and the scan goes on
    with the text behind it. *)
Lemma sub_all_first sig pre m post :
  lower m = "<!--signature-->" -> contains_ci pre = false ->
  sub_all sig (pre +:+ m +:+ post) = pre +:+ sig +:+ sub_all sig post.
Proof.
  intros Hm Hpre. unfold sub_all.
  assert (exists m', m = String "<" m') as [m' ->].
  { destruct m as [|c m]; [done|]. injection Hm as Hc _.
    apply lower_char_lt in Hc as ->. by exists m. }
  change (String "<" m' +:+ post) with (String "<" (m' +:+ post)).
  rewrite sub_scan_prefix by done.
  change (String "<" (m' +:+ post)) with (String "<" m' +:+ post).
  by rewrite sub_scan_marker.
Qed.

End Marker.

(** ** Renderer and signature *)

Section Splice.

Variable w : World.

(** C1 (as amended): for a signature that is not empty and holds no
    backslash.  When the expanded body holds the marker in all-upper or
    all-lower case, the result is the body with every occurrence of the
    marker, in whatever case, replaced by the signature: the first
    occurrence gives way to the signature, the text before it stays, and
    the text behind it is treated alike.  When the body holds no marker
    in any case, the result is the body, a line break and the signature. *)
Theorem render_html_signature template_path context text body sig :
  read_text w (mkpath w template_path) = IoOk text ->
  jinja_render w text context = IoOk body ->
  truthy sig = true ->
  contains "\" sig = false ->
  (contains "<!--SIGNATURE-->" body || contains "<!--signature-->" body = true ->
   result (render_html w template_path context sig) = Ok (sub_all sig body)) /\
  (forall pre m post,
     lower m = "<!--signature-->" -> contains_ci pre = false ->
     sub_all sig (pre +:+ m +:+ post) = pre +:+ sig +:+ sub_all sig post) /\
  (forall s, contains_ci s = false -> sub_all sig s = s) /\
  (contains_ci body = false ->
   result (render_html w template_path context sig)
   = Ok (body +:+ "<br>" +:+ sig)).
Proof.
  intros Ht Hb Hsig Hbs.
  rewrite (render_html_expanded w _ _ _ _ _ Ht Hb), Hsig.
  split; [|split; [|split]].
  - intros ->. unfold re_sub_signature. by rewrite Hbs.
  - intros pre m post. apply sub_all_first.
  - intros s. apply sub_all_no_marker.
  - intros Hnone.
    destruct (contains "<!--SIGNATURE-->" body || contains "<!--signature-->" body)
      eqn:E; [|done].
    apply contains_ci_exact in E. congruence.
Qed.

End Splice.

Lemma render_html_signature_witness :
  result (render_html (sample_host [("t.html", "Hallo<!--signature-->Ende")] [])
            "t.html" ∅ "<b>S</b>") = Ok "Hallo<b>S</b>Ende" /\
  result (render_html (sample_host [("t.html", "Hallo")] [])
            "t.html" ∅ "<b>S</b>") = Ok "Hallo<br><b>S</b>".
Proof.
  split.
  - destruct (render_html_signature
                (sample_host [("t.html", "Hallo<!--signature-->Ende")] [])
                "t.html" ∅ "Hallo<!--signature-->Ende" "Hallo<!--signature-->Ende"
                "<b>S</b>" eq_refl eq_refl eq_refl eq_refl) as (H1 & H2 & H3 & _).
    etrans; [exact (H1 eq_refl)|]. apply (f_equal Ok).
    etrans; [exact (H2 "Hallo" "<!--signature-->" "Ende" eq_refl eq_refl)|].
    apply (f_equal (fun s => "Hallo" +:+ "<b>S</b>" +:+ s)).
    exact (H3 "Ende" eq_refl).
  - destruct (render_html_signature
                (sample_host [("t.html", "Hallo")] [])
                "t.html" ∅ "Hallo" "Hallo"
                "<b>S</b>" eq_refl eq_refl eq_refl eq_refl) as (_ & _ & _ & H4).
    exact (H4 eq_refl).
Defined.

(** C1, counterexample: a body with two markers.  The code replaces both,
    the wording only the first.  (And a body whose only marker is spelled
    in mixed case keeps it and gets the signature appended.) *)
Lemma render_html_replaces_every_marker :
  let host := sample_host [("t.html", "<!--signature-->a<!--SIGNATURE-->");
                           ("u.html", "a<!--Signature-->b")] [] in
  result (render_html host "t.html" ∅ "S") = Ok "SaS" /\
  spec_render_signature "<!--signature-->a<!--SIGNATURE-->" "S"
    = "Sa<!--SIGNATURE-->" /\
  result (render_html host "t.html" ∅ "S")
    <> Ok (spec_render_signature "<!--signature-->a<!--SIGNATURE-->" "S") /\
  result (render_html host "u.html" ∅ "S") = Ok "a<!--Signature-->b<br>S" /\
  spec_render_signature "a<!--Signature-->b" "S" = "aSb".
Proof. by vm_compute. Qed.

(** ** Dispatcher *)

Section Dispatcher.

Variable w : World.
Variable args : Args.
Variable template_path global_subject signature_html : string.
Variable total : nat.

Lemma main_row_dry_no_transport i c st :
  arg_dry args = true ->
  List.filter is_transport
    (events (main_row w args template_path global_subject signature_html
               total i c st)) = [].
Proof.
  intros Hdry. destruct st as [sent failed]. unfold main_row.
  rewrite Hdry. cbn [negb]. rewrite andb_false_r.
  destruct (truthy (rec_get c "email" "")); cbn [negb]; [|done].
  rewrite events_bind, render_html_events.
  by destruct (result (render_html _ _ _ _)).
Qed.

Lemma main_loop_dry_no_transport i contacts st :
  arg_dry args = true ->
  List.filter is_transport
    (events (main_loop w args template_path global_subject signature_html
               total i contacts st)) = [].
Proof.
  intros Hdry. revert i st.
  induction contacts as [|c rest IH]; intros i st; [done|].
  cbn [main_loop]. rewrite events_bind, List.filter_app.
  rewrite main_row_dry_no_transport by done.
  destruct (result (main_row _ _ _ _ _ _ _ _ _)) as [st'|e]; [|done].
  apply IH.
Qed.

End Dispatcher.

(** ** Mail transport *)

Section Transport.

Variable w : World.

Lemma add_paths_no_submit paths acc m :
  ~ In (ComSend m) (events (add_paths w paths acc)) /\
  ~ In (ComDisplay m) (events (add_paths w paths acc)).
Proof.
  revert acc. induction paths as [|p paths IH]; intros acc.
  - split; intros [].
  - cbn [add_paths]. unfold fs_exists, fs_is_file.
    unfold bind at 1 2 3. cbn [emit ret].
    destruct (path_exists w (mkpath w p)); cbn [app].
    + destruct (path_is_file w (mkpath w p)); cbn [app].
      * unfold bind, emit, lift_io.
        destruct (outlook_attach w (mkpath w p)); cbn [ret raise app].
        -- destruct (add_paths w paths _) as [t o] eqn:E.
           destruct (IH (acc ++ [mkpath w p])%list) as [H1 H2].
           rewrite E in H1, H2. cbn [events fst] in *.
           split; intros [?|[?|[?|?]]]; try done; tauto.
        -- split; intros [?|[?|[?|?]]]; done.
      * unfold bind, emit.
        destruct (add_paths w paths acc) as [t o] eqn:E.
        destruct (IH acc) as [H1 H2]. rewrite E in H1, H2.
        cbn [events fst app] in *.
        split; intros [?|[?|[?|?]]]; try done; tauto.
    + unfold bind, emit.
      destruct (add_paths w paths acc) as [t o] eqn:E.
      destruct (IH acc) as [H1 H2]. rewrite E in H1, H2.
      cbn [events fst app] in *.
      split; intros [?|[?|?]]; try done; tauto.
Qed.

(** Whatever [send_outlook] submits carries the subject, and the CC and
    BCC texts, as they were passed in. *)
Lemma send_outlook_submits_raw to_addr subject html cc bcc attachments display m :
  In (ComSend m) (events (send_outlook w to_addr subject html cc bcc attachments display))
  \/ In (ComDisplay m) (events (send_outlook w to_addr subject html cc bcc attachments display)) ->
  mail_Subject m = subject /\
  mail_CC m = (if truthy cc then Some cc else None) /\
  mail_BCC m = (if truthy bcc then Some bcc else None).
Proof.
  unfold send_outlook. unfold bind at 1 2, emit at 1, lift_io at 1.
  destruct (outlook_create w) as [u|msg]; cbn [ret raise app].
  2:{ intros [[?|[]]|[?|[]]]; done. }
  set (atts := if truthy attachments then _ else _).
  assert (Hatts : forall m', ~ In (ComSend m') (events atts) /\
                             ~ In (ComDisplay m') (events atts)).
  { intros m'. unfold atts, add_attachments.
    destruct (truthy attachments); [apply add_paths_no_submit|].
    split; intros []. }
  destruct atts as [t [files|e]]; cbn [events fst] in Hatts.
  - unfold bind, emit, lift_io.
    destruct display; destruct (outlook_submit w _ _); cbn [ret raise app];
      rewrite ?app_nil_r;
      intros [[?|[Hin|Hin]%in_app_or]|[?|[Hin|Hin]%in_app_or]]; try done;
      try (by apply Hatts in Hin);
      destruct Hin as [[= <-]|[]]; done.
  - unfold bind. intros [[?|Hin]|[?|Hin]]; try done; by apply Hatts in Hin.
Qed.

End Transport.

(** ** Subjects *)

Section Subjects.

Variable w : World.
Variable args : Args.
Variable template_path global_subject signature_html : string.
Variable total : nat.

Lemma send_outlook_with_subject to_addr subject html cc bcc attachments display :
  truthy subject = true ->
  List.filter sends_without_subject
    (events (send_outlook w to_addr subject html cc bcc attachments display)) = [].
Proof.
  intros Hs.
  destruct (List.filter _ _) as [|e l] eqn:E; [done|].
  assert (Hin : In e (List.filter sends_without_subject
            (events (send_outlook w to_addr subject html cc bcc attachments display)))).
  { rewrite E. by left. }
  apply filter_In in Hin as [Hin He].
  destruct e as [| | | | | | | | | |m|m|]; try done.
  - destruct (send_outlook_submits_raw w _ _ _ _ _ _ _ m (or_introl Hin)) as [Hm _].
    simpl in He. rewrite Hm, Hs in He. done.
  - destruct (send_outlook_submits_raw w _ _ _ _ _ _ _ m (or_intror Hin)) as [Hm _].
    simpl in He. rewrite Hm, Hs in He. done.
Qed.

(** No turn of the loop submits a mail with an empty subject. *)
Lemma main_row_never_subjectless i c st :
  List.filter sends_without_subject
    (events (main_row w args template_path global_subject signature_html
               total i c st)) = [].
Proof.
  destruct st as [sent failed]. unfold main_row.
  destruct (truthy (rec_get c "email" "")); cbn [negb]; [|done].
  set (subject := por _ global_subject).
  destruct (truthy subject) eqn:Hs; cbn [negb andb].
  - rewrite events_bind, render_html_events.
    destruct (result (render_html _ _ _ _)) as [html|e]; [|done].
    destruct (arg_dry args); [done|].
    pose proof (send_outlook_with_subject (rec_get c "email" "") subject html
                  (rec_get c "cc" "") (rec_get c "bcc" "")
                  (por (rec_get c "anhangpfad" "") (rec_get c "anhang" ""))
                  (arg_display args) Hs) as Hsend.
    destruct (send_outlook _ _ _ _ _ _ _ _) as [t o]. cbn [events fst] in Hsend.
    destruct o as [[]|[r|msg]]; unfold bind, try_except, emit, ret;
      simpl; rewrite ?List.filter_app, Hsend; done.
  - destruct (arg_dry args); cbn [negb]; [|done].
    rewrite events_bind, render_html_events.
    by destruct (result (render_html _ _ _ _)).
Qed.

Lemma main_loop_never_subjectless i contacts st :
  List.filter sends_without_subject
    (events (main_loop w args template_path global_subject signature_html
               total i contacts st)) = [].
Proof.
  revert i st. induction contacts as [|c rest IH]; intros i st; [done|].
  cbn [main_loop]. rewrite events_bind, List.filter_app.
  rewrite main_row_never_subjectless.
  destruct (result (main_row _ _ _ _ _ _ _ _ _)) as [st'|e]; [|done].
  apply IH.
Qed.

End Subjects.

(** C8: a row with an email but no subject of its own, when no global
    subject was given.  Live: the row leaves one warning, counts as
    failed, and nothing else happens -- the transport is not called.  Dry
    run: the row is printed as a preview whose subject reads "(leer)", as
    soon as the template renders; no dry-run loop ever calls the
    transport; and no loop, live or dry, submits a mail whose subject is
    empty. *)
Theorem main_row_without_subject (w : World) args template_path sig total i c
    sent failed :
  truthy (rec_get c "email" "") = true ->
  strip (rec_get c "betreff" "") = "" ->
  (arg_dry args = false ->
   main_row w args template_path "" sig total i c (sent, failed)
   = ([Stderr (SkipNoSubject (rec_get c "email" ""))], Ok (sent, S failed))) /\
  (arg_dry args = true ->
   forall t html,
     render_html w template_path (build_context c) sig = (t, Ok html) ->
     main_row w args template_path "" sig total i c (sent, failed)
     = ((t ++ [Stdout (DryRun i (rec_get c "email" "") "(leer)"
                         (rec_get c "cc" "") (rec_get c "bcc" "")
                         (por (rec_get c "anhangpfad" "") (rec_get c "anhang" ""))
                         html)])%list,
        Ok (sent, failed))) /\
  (arg_dry args = true ->
   forall global_subject j contacts st,
     List.filter is_transport
       (events (main_loop w args template_path global_subject sig total
                  j contacts st)) = []) /\
  (forall global_subject j contacts st,
     List.filter sends_without_subject
       (events (main_loop w args template_path global_subject sig total
                  j contacts st)) = []).
Proof.
  intros Hemail Hsubj. split; [|split; [|split]].
  - intros Hlive. unfold main_row. by rewrite Hemail, Hsubj, Hlive.
  - intros Hdry t html Hrender. unfold main_row.
    rewrite Hemail, Hsubj, Hdry, Hrender. done.
  - intros Hdry global_subject j contacts st.
    by apply main_loop_dry_no_transport.
  - intros global_subject j contacts st. apply main_loop_never_subjectless.
Qed.

Lemma main_row_without_subject_witness :
  let host := sample_host [("/work/t.html", "<p>Hallo</p>")] [] in
  let c : record := {[ "email" := "k@x.com"; "betreff" := "  " ]} in
  main_row host (sample_args false) "/work/t.html" "" "" 3 1 c (0, 0)%nat
    = ([Stderr (SkipNoSubject "k@x.com")], Ok (0, 1)%nat) /\
  main_row host (sample_args true) "/work/t.html" "" "" 3 1 c (0, 0)%nat
    = ([FsReadText "/work/t.html";
        Stdout (DryRun 1 "k@x.com" "(leer)" "" "" "" "<p>Hallo</p>")],
       Ok (0, 0)%nat) /\
  List.filter is_transport
    (events (main_loop host (sample_args true) "/work/t.html" "Angebot" "" 3 1
               [c; c; c] (0, 0)%nat)) = [].
Proof.
  intros host c. split; [|split].
  - destruct (main_row_without_subject host (sample_args false) "/work/t.html"
                "" 3 1 c 0 0 eq_refl eq_refl) as (H & _ & _ & _).
    exact (H eq_refl).
  - destruct (main_row_without_subject host (sample_args true) "/work/t.html"
                "" 3 1 c 0 0 eq_refl eq_refl) as (_ & H & _ & _).
    exact (H eq_refl [FsReadText "/work/t.html"] "<p>Hallo</p>" eq_refl).
  - destruct (main_row_without_subject host (sample_args true) "/work/t.html"
                "" 3 1 c 0 0 eq_refl eq_refl) as (_ & _ & H & _).
    exact (H eq_refl "Angebot" 1%nat [c; c; c] (0, 0)%nat).
Defined.

(** C2, the code at the failing input: [parse_list_field] splits the CC
    text into three addresses, but the dispatcher never applies it to CC
    or BCC: Outlook is handed the text of the cell. *)
Lemma cc_reaches_outlook_unparsed :
  let host := sample_host [("/work/t.html", "<p>Hallo</p>")] [] in
  let c : record := {[ "email" := "k@x.com"; "betreff" := "Angebot";
                       "cc" := "a@x.com; b@x.com,c@x.com" ]} in
  parse_list_field "a@x.com; b@x.com,c@x.com" = ["a@x.com"; "b@x.com"; "c@x.com"] /\
  main_row host (sample_args false) "/work/t.html" "" "" 1 1 c (0, 0)%nat
  = ([FsReadText "/work/t.html"; ComCreateItem;
      ComSend {| mail_To := "k@x.com";
                 mail_CC := Some "a@x.com; b@x.com,c@x.com";
                 mail_BCC := None;
                 mail_Subject := "Angebot";
                 mail_HTMLBody := "<p>Hallo</p>";
                 mail_Attachments := [] |};
      Stdout (OkLine 1 1 "k@x.com"); Sleep],
     Ok (1, 0)%nat).
Proof. by vm_compute. Qed.

(** ** Worked examples *)

Example parse_list_field_cc :
  parse_list_field "a@x.com; b@x.com,c@x.com" = ["a@x.com"; "b@x.com"; "c@x.com"].
Proof. reflexivity. Qed.

Example parse_list_field_blank_pieces :
  parse_list_field " ;a.pdf,, b.pdf ;" = ["a.pdf"; "b.pdf"].
Proof. reflexivity. Qed.

Example build_anrede_brief_herr :
  build_anrede_brief "Herr" "" "" "Muller" = "Sehr geehrter Herr Muller".
Proof. reflexivity. Qed.

Example build_anrede_brief_frau_titel :
  build_anrede_brief " frau " "Dr." "Eva" "Meier" = "Sehr geehrte Frau Dr. Meier".
Proof. reflexivity. Qed.

Example build_anrede_brief_neutral :
  build_anrede_brief "" "Dr." "Kim" "" = "Guten Tag Kim".
Proof. reflexivity. Qed.

(** Two data rows, one without email: one record, one preview. *)
Example main_dry_run :
  let wb : workbook :=
    [("Kunden", [[CStr "Email"; CStr "Anrede"; CStr "Nachname"];
                 [CStr "a@x.com"; CStr "Herr"; CStr "Muller"];
                 [CNone; CStr "Frau"; CStr "Meier"]])] in
  let host := sample_host [("/work/Kundenliste.xlsx", "");
                           ("/work/mail_template.html", "<p>Hallo</p>")] wb in
  load_sheet [[CStr "Email"; CStr "Anrede"; CStr "Nachname"];
              [CStr "a@x.com"; CStr "Herr"; CStr "Muller"];
              [CNone; CStr "Frau"; CStr "Meier"]]
  = [ {[ "email" := "a@x.com"; "anrede" := "Herr"; "nachname" := "Muller" ]} ] /\
  build_context {[ "email" := "a@x.com"; "anrede" := "Herr"; "nachname" := "Muller" ]}
    !! "AnredeBrief" = Some "Sehr geehrter Herr Muller" /\
  main host (sample_args true)
  = ([Stdout (DebugPaths "/app" "/work" "/work/Kundenliste.xlsx"
                "/work/mail_template.html");
      FsExists "/work/Kundenliste.xlsx";
      FsExists "/work/mail_template.html";
      FsLoadWorkbook "/work/Kundenliste.xlsx";
      Stdout (Info 1 "/work/mail_template.html" "none" true);
      FsReadText "/work/mail_template.html";
      Stdout (DryRun 1 "a@x.com" "(leer)" "" "" "" "<p>Hallo</p>")],
     Ok tt).
Proof. by vm_compute. Qed.

(** Three rows and no subject, dry run: three previews, no call of the
    transport. *)
Example main_dry_run_three_rows :
  let c (e : string) : record := {[ "email" := e ]} in
  let host := sample_host [("/work/t.html", "<p>Hallo</p>")] [] in
  main_loop host (sample_args true) "/work/t.html" "" "" 3 1
    [c "a@x.com"; c "b@x.com"; c "c@x.com"] (0, 0)%nat
  = ([FsReadText "/work/t.html";
      Stdout (DryRun 1 "a@x.com" "(leer)" "" "" "" "<p>Hallo</p>");
      FsReadText "/work/t.html";
      Stdout (DryRun 2 "b@x.com" "(leer)" "" "" "" "<p>Hallo</p>");
      FsReadText "/work/t.html";
      Stdout (DryRun 3 "c@x.com" "(leer)" "" "" "" "<p>Hallo</p>")],
     Ok (0, 0)%nat).
Proof. by vm_compute. Qed.

(** Mode auto without a signature folder, live run: the warning, then the
    batch as usual. *)
Example main_live_without_signature :
  let wb : workbook :=
    [("Kunden", [[CStr "Email"; CStr "Betreff"];
                 [CStr "a@x.com"; CStr "Angebot"]])] in
  let host := sample_host [("/work/Kundenliste.xlsx", "");
                           ("/work/mail_template.html", "<p>Hallo</p>")] wb in
  main host {| arg_excel := "Kundenliste.xlsx"; arg_sheet := Some "Kunden";
               arg_subject := None; arg_template := "mail_template.html";
               arg_sig := "auto"; arg_dry := false; arg_display := true |}
  = ([Stdout (DebugPaths "/app" "/work" "/work/Kundenliste.xlsx"
                "/work/mail_template.html");
      FsExists "/work/Kundenliste.xlsx";
      FsExists "/work/mail_template.html";
      FsLoadWorkbook "/work/Kundenliste.xlsx";
      FsExists "/appdata/Microsoft/Signatures";
      Stderr (WarnDefaultSignature "/appdata/Microsoft/Signatures");
      Stdout (Info 1 "/work/mail_template.html" "auto" false);
      FsReadText "/work/mail_template.html";
      ComCreateItem;
      ComDisplay {| mail_To := "a@x.com"; mail_CC := None; mail_BCC := None;
                    mail_Subject := "Angebot"; mail_HTMLBody := "<p>Hallo</p>";
                    mail_Attachments := [] |};
      Stdout (OkLine 1 1 "a@x.com"); Sleep;
      Stdout (Summary 1 0)],
     Ok tt).
Proof. by vm_compute. Qed.

(** * Further properties *)

(** ** List fields, further *)

Section ListFields.

#[local] Arguments String.append !_ _ / : simpl nomatch.

Lemma split_on_nonempty f s : split_on f s <> [].
Proof.
  destruct s as [|c s]; [done|]. simpl.
  destruct (f c); [done|]. by destruct (split_on f s).
Qed.

(** A separator ends one run of pieces and starts the next. *)
Lemma split_on_app_sep f a c b :
  f c = true ->
  split_on f (a +:+ String c b) = (split_on f a ++ split_on f b)%list.
Proof.
  intros Hc. induction a as [|d a IH]; simpl.
  - by rewrite Hc.
  - rewrite IH. destruct (f d); [done|].
    pose proof (split_on_nonempty f a).
    by destruct (split_on f a).
Qed.

Lemma split_on_no_sep s :
  no_list_sep s = true -> split_on is_list_sep s = [s].
Proof.
  induction s as [|c s IH]; [done|]. simpl.
  intros [Hc Hs]%andb_true_iff. apply negb_true_iff in Hc.
  by rewrite Hc, (IH Hs).
Qed.

Lemma split_on_pieces s :
  Forall (fun p => no_list_sep p = true) (split_on is_list_sep s).
Proof.
  induction s as [|c s IH]; simpl.
  - by constructor.
  - destruct (is_list_sep c) eqn:Hc.
    + by constructor.
    + destruct (split_on is_list_sep s) as [|p ps].
      { constructor; [simpl; by rewrite Hc|constructor]. }
      inversion IH as [|? ? Hp Hps]; subst.
      constructor; [|done]. simpl. by rewrite Hc, Hp.
Qed.

Lemma no_list_sep_lstrip s : no_list_sep s = true -> no_list_sep (lstrip s) = true.
Proof.
  induction s as [|c s IH]; [done|]. simpl.
  intros [Hc Hs]%andb_true_iff.
  destruct (isspace c); [by apply IH|]. simpl. by rewrite Hc, Hs.
Qed.

Lemma no_list_sep_rstrip s : no_list_sep s = true -> no_list_sep (rstrip s) = true.
Proof.
  induction s as [|c s IH]; [done|]. rewrite rstrip_cons.
  cbn [no_list_sep]. intros [Hc Hs]%andb_true_iff. specialize (IH Hs).
  destruct (rstrip s) as [|d r].
  - destruct (isspace c); [done|]. simpl. by rewrite Hc.
  - cbn [no_list_sep] in *. by rewrite Hc, IH.
Qed.

(** The early return for the empty text agrees with the general path. *)
Lemma parse_list_field_split val :
  parse_list_field val =
  map strip (List.filter (fun p => truthy (strip p)) (split_on is_list_sep val)).
Proof. by destruct val. Qed.

(** X1: every piece [parse_list_field] returns is not empty, is trimmed
    and holds neither "," nor ";". *)
Theorem parse_list_field_pieces val p :
  In p (parse_list_field val) -> clean_piece p.
Proof.
  rewrite parse_list_field_split.
  intros (q & <- & [Hq Hne]%filter_In)%in_map_iff.
  split; [by apply truthy_true|]. split; [apply strip_idem|].
  unfold strip. apply no_list_sep_lstrip, no_list_sep_rstrip.
  pose proof (split_on_pieces val) as HF.
  rewrite Forall_forall in HF. apply HF. by apply list_elem_of_In.
Qed.

Lemma parse_list_field_pieces_witness : clean_piece "b@x.com".
Proof.
  apply (parse_list_field_pieces "a@x.com; b@x.com,c@x.com"). simpl. tauto.
Defined.

(** X2: a separator, "," or ";" alike, splits the work: the pieces of a
    text are those of the part before a separator followed by those of the
    part behind it. *)
Theorem parse_list_field_app_sep a c b :
  is_list_sep c = true ->
  parse_list_field (a +:+ String c b) =
  (parse_list_field a ++ parse_list_field b)%list.
Proof.
  intros Hc. rewrite !parse_list_field_split, split_on_app_sep by done.
  rewrite List.filter_app. apply List.map_app.
Qed.

Lemma parse_list_field_app_sep_witness :
  parse_list_field ("a.pdf , " +:+ String ";" " b.pdf") = ["a.pdf"; "b.pdf"].
Proof. apply (parse_list_field_app_sep "a.pdf , " ";" " b.pdf"). reflexivity. Defined.

Lemma parse_list_field_clean p : clean_piece p -> parse_list_field p = [p].
Proof.
  intros (Hne & Hs & Hsep). rewrite parse_list_field_split, split_on_no_sep by done.
  simpl. rewrite Hs. destruct p as [|d p]; [done|]. simpl. by rewrite Hs.
Qed.

(** X3: round trip -- clean pieces joined by a separator are parsed back
    to the same list, in order. *)
Theorem parse_list_field_join c xs :
  is_list_sep c = true ->
  Forall clean_piece xs ->
  parse_list_field (join (String c "") xs) = xs.
Proof.
  intros Hc HF. induction HF as [|x xs Hx HF IH]; [done|].
  destruct xs as [|y xs].
  - by apply parse_list_field_clean.
  - change (join (String c "") (x :: y :: xs))
      with (x +:+ String c (join (String c "") (y :: xs))).
    rewrite parse_list_field_split, split_on_app_sep by done.
    rewrite List.filter_app, List.map_app, <- !parse_list_field_split.
    by rewrite IH, (parse_list_field_clean x Hx).
Qed.

Lemma parse_list_field_join_witness :
  parse_list_field (join ";" ["a@x.com"; "b@x.com"]) = ["a@x.com"; "b@x.com"].
Proof.
  apply (parse_list_field_join ";" ["a@x.com"; "b@x.com"]); [reflexivity|].
  repeat constructor; discriminate.
Defined.

End ListFields.

(** ** Normalising and greeting, further *)

Section Greeting.

#[local] Arguments String.append !_ _ / : simpl nomatch.

Lemma lower_char_idem c : lower_char (lower_char c) = lower_char c.
Proof. by destruct c as [[] [] [] [] [] [] [] []]. Qed.

Lemma lower_idem s : lower (lower s) = lower s.
Proof. induction s as [|c s IH]; simpl; [done|]. by rewrite lower_char_idem, IH. Qed.

(** X4: [normalize] is idempotent, its result is trimmed, and a missing
    value gives the empty text. *)
Theorem normalize_idempotent o :
  normalize (Some (normalize o)) = normalize o /\
  strip (normalize o) = normalize o /\
  normalize None = "".
Proof.
  split; [|split]; [|apply strip_idem|done].
  rewrite normalize_Some. apply strip_idem.
Qed.

(** X5: the greeting depends on its inputs only through their trimmed
    forms, and on the gender only up to letter case. *)
Theorem build_anrede_brief_normalized anrede titel vorname nachname :
  build_anrede_brief anrede titel vorname nachname =
  build_anrede_brief (lower (strip anrede)) (strip titel) (strip vorname)
    (strip nachname).
Proof.
  rewrite !build_anrede_brief_unfold. unfold name_tail. cbv zeta.
  by rewrite <- !lower_strip, lower_idem, !lower_strip, !strip_idem.
Qed.

Lemma name_tail_cases v n :
  name_tail v n = "" \/ exists name, name_tail v n = " " +:+ name /\ rtrimmed name.
Proof.
  unfold name_tail. set (name := por _ _).
  destruct (truthy name) eqn:Hn; [right|by left].
  exists name. split; [done|]. apply rtrimmed_strip; [by apply truthy_true|].
  unfold name, por, full_name.
  pose proof (strip_idem v) as Hv. pose proof (strip_idem n) as Hl.
  destruct (strip n) as [|d l]; [|done].
  destruct (strip v) as [|c f]; done.
Qed.

(** X6: every greeting is trimmed and opens with one of the three
    phrases "Sehr geehrter ", "Sehr geehrte " or "Guten Tag". *)
Theorem build_anrede_brief_shape anrede titel vorname nachname :
  let g := build_anrede_brief anrede titel vorname nachname in
  strip g = g /\
  (startswith "Sehr geehrter " g || startswith "Sehr geehrte " g
   || startswith "Guten Tag" g) = true.
Proof.
  cbv zeta. rewrite build_anrede_brief_unfold. cbv zeta.
  assert (HP : forall fb, rtrimmed fb ->
            rtrimmed (pick (strip titel) fb +:+ name_tail vorname nachname)).
  { intros fb Hfb.
    destruct (name_tail_cases vorname nachname) as [->|(name & -> & Hn)].
    - rewrite append_nil_r. apply rtrimmed_pick; [done|apply strip_idem].
    - by do 2 apply rtrimmed_app. }
  destruct (String.eqb _ "herr").
  { split; [|done].
    apply (strip_rtrimmed "S" _ eq_refl).
    change (rtrimmed ("Sehr geehrter " +:+ pick (strip titel) "Herr"
                        +:+ name_tail vorname nachname)).
    apply rtrimmed_app, HP. by split. }
  destruct (String.eqb _ "frau").
  { split; [|done].
    apply (strip_rtrimmed "S" _ eq_refl).
    change (rtrimmed ("Sehr geehrte " +:+ pick (strip titel) "Frau"
                        +:+ name_tail vorname nachname)).
    apply rtrimmed_app, HP. by split. }
  set (fn := full_name _ _).
  assert (Hfn : strip fn = fn).
  { unfold fn, full_name.
    pose proof (strip_idem vorname) as Hv. pose proof (strip_idem nachname) as Hl.
    destruct (strip vorname) as [|c f], (strip nachname) as [|d l]; simpl; try done.
    by apply (strip_app3 (String c f) " " (String d l)). }
  destruct (truthy fn) eqn:Ht.
  - split; [|done].
    apply (strip_rtrimmed "G" _ eq_refl).
    change (rtrimmed ("Guten Tag " +:+ fn)).
    apply rtrimmed_app, rtrimmed_strip; [by apply truthy_true|done].
  - by split.
Qed.

(** X8: when the gender is neither "herr" nor "frau" the title plays no
    part: the greeting is the one for an empty title. *)
Theorem build_anrede_brief_neutral_drops_title anrede titel vorname nachname :
  String.eqb (lower (strip anrede)) "herr" = false ->
  String.eqb (lower (strip anrede)) "frau" = false ->
  build_anrede_brief anrede titel vorname nachname =
  build_anrede_brief anrede "" vorname nachname.
Proof.
  intros Hh Hf. rewrite !build_anrede_brief_unfold. cbv zeta. by rewrite Hh, Hf.
Qed.

Lemma build_anrede_brief_neutral_drops_title_witness :
  build_anrede_brief "Divers" "Prof. Dr." "Kim" "Lee" =
  build_anrede_brief "Divers" "" "Kim" "Lee".
Proof.
  apply (build_anrede_brief_neutral_drops_title "Divers" "Prof. Dr." "Kim" "Lee");
    reflexivity.
Defined.

End Greeting.

(** ** Subject *)

Section Subject.

Variable w : World.

(** X7: whatever [read_subject] returns is trimmed; without an argument
    it returns the empty subject and touches no file; and an argument that
    names no existing file is itself the subject, trimmed. *)
Theorem read_subject_trimmed arg :
  (forall s, result (read_subject w arg) = Ok s -> strip s = s) /\
  (arg = None \/ arg = Some "" -> read_subject w arg = ([], Ok "")) /\
  (forall a, arg = Some a -> truthy a = true ->
     path_exists w (mkpath w a) && path_is_file w (mkpath w a) = false ->
     result (read_subject w arg) = Ok (strip a)).
Proof.
  split; [|split].
  - intros s. destruct arg as [a|]; [|by intros [= <-]].
    unfold read_subject, fs_exists, fs_is_file, fs_read_text.
    destruct (truthy a); cbn [negb]; [|by intros [= <-]].
    unfold bind, emit, lift_io, ret, raise, result.
    destruct (path_exists w _); simpl.
    + destruct (path_is_file w _); simpl.
      * destruct (read_text w _) as [t|msg]; simpl; [|done].
        intros [= <-]. apply strip_idem.
      * intros [= <-]. apply strip_idem.
    + intros [= <-]. apply strip_idem.
  - by intros [->| ->].
  - intros a -> Ha Hfile.
    unfold read_subject, fs_exists, fs_is_file. rewrite Ha. cbn [negb].
    unfold bind, emit, ret, result.
    destruct (path_exists w _); simpl; [|done].
    simpl in Hfile. by rewrite Hfile.
Qed.

End Subject.

Lemma read_subject_trimmed_witness :
  result (read_subject (sample_host [] []) (Some " Angebot ")) = Ok "Angebot".
Proof.
  destruct (read_subject_trimmed (sample_host [] []) (Some " Angebot "))
    as (_ & _ & H).
  exact (H " Angebot " eq_refl eq_refl eq_refl).
Defined.

(** ** Contact loader, further *)

Section LoaderMore.

#[local] Arguments String.append !_ _ / : simpl nomatch.

Lemma find_sheet_None name (wb : workbook) :
  find_sheet name wb = None <-> ~ In name (map fst wb).
Proof.
  induction wb as [|[n ws] wb IH]; simpl; [tauto|].
  destruct (String.eqb n name) eqn:E.
  - apply String.eqb_eq in E. split; [done|]. intros H. destruct H. by left.
  - apply String.eqb_neq in E. rewrite IH. tauto.
Qed.

Lemma find_sheet_Some name (wb : workbook) ws :
  find_sheet name wb = Some ws -> In (name, ws) wb.
Proof.
  induction wb as [|[n ws'] wb IH]; simpl; [done|].
  destruct (String.eqb n name) eqn:E.
  - apply String.eqb_eq in E. intros [= <-]. left. by subst.
  - intros H. right. by apply IH.
Qed.

(** X9: a named sheet that the workbook holds is the one loaded; a name
    the workbook does not hold ends the run with [SystemExit], reporting
    the name and the sheets there are. *)
Theorem load_contacts_sheet_selection (w : World) path wb sheet :
  load_workbook w path = IoOk wb ->
  truthy sheet = true ->
  (In sheet (map fst wb) ->
   exists ws, In (sheet, ws) wb /\
     load_contacts w path (Some sheet) = ([FsLoadWorkbook path], Ok (load_sheet ws))) /\
  (~ In sheet (map fst wb) ->
   load_contacts w path (Some sheet) =
     ([FsLoadWorkbook path], Raise (SystemExit (SheetNotFound sheet (map fst wb))))).
Proof.
  intros Hwb Hs. unfold load_contacts, select_sheet. rewrite Hwb, Hs.
  unfold bind, emit, lift_io, ret, raise. simpl.
  destruct (find_sheet sheet wb) as [ws|] eqn:E.
  - split.
    + intros _. exists ws. split; [by apply find_sheet_Some|done].
    + intros Hn. apply find_sheet_None in Hn. congruence.
  - split; [|done]. intros Hin. by apply find_sheet_None in E.
Qed.

(** X10: rows are loaded one by one, in order: loading two runs of rows
    under one header row gives the records of the first run followed by
    those of the second; and there are never more records than data
    rows. *)
Theorem load_sheet_rowwise hs rows1 rows2 :
  load_sheet (hs :: rows1 ++ rows2) =
    (load_sheet (hs :: rows1) ++ load_sheet (hs :: rows2))%list /\
  length (load_sheet (hs :: rows1)) <= length rows1.
Proof.
  rewrite !load_sheet_rows. split.
  - by rewrite List.map_app, List.filter_app.
  - etrans; [apply List.filter_length_le|]. by rewrite List.length_map.
Qed.

Lemma build_record_trimmed headers r k v :
  build_record headers r !! k = Some v -> strip v = v.
Proof.
  apply (fill_record_trimmed headers 0 r ∅). intros k' v'. by rewrite lookup_empty.
Qed.

(** X11: every value of every loaded record is trimmed, whatever its
    column. *)
Theorem load_sheet_values_trimmed ws rec k v :
  In rec (load_sheet ws) -> rec !! k = Some v -> strip v = v.
Proof.
  intros (hs & rows & r & _ & _ & -> & _)%load_sheet_In.
  apply build_record_trimmed.
Qed.

Lemma lower_pretty_N_char x : lower_char (pretty_N_char x) = pretty_N_char x.
Proof. unfold pretty_N_char. by repeat case_match. Qed.

Lemma lower_pretty_N_go x s : lower s = s -> lower (pretty_N_go x s) = pretty_N_go x s.
Proof.
  revert s. induction (N.lt_wf_0 x) as [x _ IH]; intros s Hs.
  destruct (decide (x = 0)%N) as [->|Hx].
  - by rewrite pretty_N_go_0.
  - rewrite pretty_N_go_step by lia. apply IH.
    + apply N.div_lt; lia.
    + simpl. by rewrite lower_pretty_N_char, Hs.
Qed.

Lemma lower_pretty_nat (n : nat) : lower (pretty n) = pretty n.
Proof.
  unfold pretty, pretty_nat, pretty, pretty_N.
  case_decide; [done|]. by apply lower_pretty_N_go.
Qed.

Lemma lower_app a b : lower (a +:+ b) = lower a +:+ lower b.
Proof. induction a as [|c a IH]; simpl; [done|]. by rewrite IH. Qed.

Lemma column_key_lower hs i :
  lower (column_key (map header_key hs) i) = column_key (map header_key hs) i.
Proof.
  unfold column_key. rewrite list_lookup_fmap.
  destruct (hs !! i) as [h|]; simpl.
  - unfold header_key. apply lower_idem.
  - by rewrite lower_pretty_nat.
Qed.

(** X12: every key of every loaded record is in lower case, the
    positional keys included. *)
Theorem load_sheet_keys_lower ws rec k :
  In rec (load_sheet ws) -> is_Some (rec !! k) -> lower k = k.
Proof.
  intros (hs & rows & r & _ & _ & -> & _)%load_sheet_In.
  unfold build_record. rewrite fill_record_dom, lookup_empty.
  intros [[? ?]|(j & _ & <-)]; [done|]. apply column_key_lower.
Qed.

End LoaderMore.

Lemma load_contacts_sheet_selection_witness :
  load_contacts (sample_host [] [("Kunden", []); ("Alt", [])]) "k.xlsx" (Some "Neu")
  = ([FsLoadWorkbook "k.xlsx"],
     Raise (SystemExit (SheetNotFound "Neu" ["Kunden"; "Alt"]))).
Proof.
  destruct (load_contacts_sheet_selection
              (sample_host [] [("Kunden", []); ("Alt", [])]) "k.xlsx"
              [("Kunden", []); ("Alt", [])] "Neu" eq_refl eq_refl) as [_ H].
  apply H. simpl. intros [H1|[H1|[]]]; discriminate.
Defined.

Lemma load_sheet_values_trimmed_witness : strip "Muller" = "Muller".
Proof.
  apply (load_sheet_values_trimmed
           [[CStr "Email"; CStr "Name"]; [CStr "a@x.com"; CStr " Muller "]]
           {[ "email" := "a@x.com"; "name" := "Muller" ]} "name").
  - vm_compute. left. reflexivity.
  - reflexivity.
Defined.

Lemma load_sheet_keys_lower_witness : lower "spalte_2" = "spalte_2".
Proof.
  apply (load_sheet_keys_lower
           [[CStr "Email"]; [CStr "a@x.com"; CStr "x"]]
           {[ "email" := "a@x.com"; "spalte_2" := "x" ]}).
  - vm_compute. left. reflexivity.
  - by exists "x".
Defined.

(** ** File-system events *)

Section FsEvents.

Variable w : World.

Lemma Forall_events_bind {A B} (P : event -> Prop) (m : M A) (f : A -> M B) :
  Forall P (events m) -> (forall a, Forall P (events (f a))) ->
  Forall P (events (bind m f)).
Proof.
  intros Hm Hf. rewrite events_bind. apply Forall_app. split; [done|].
  destruct (result m); [apply Hf|constructor].
Qed.

(** A predicate that holds of no file-system event selects nothing from
    a run of file-system events. *)
Lemma filter_fs_events (p : event -> bool) l :
  (forall e, is_fs e = true -> p e = false) ->
  Forall (fun e => is_fs e = true) l -> List.filter p l = [].
Proof.
  intros Hp. induction 1 as [|e l He _ IH]; [done|].
  simpl. by rewrite (Hp e He).
Qed.

Lemma stat_all_fs fs : Forall (fun e => is_fs e = true) (events (stat_all w fs)).
Proof.
  induction fs as [|f fs IH]; [constructor|].
  cbn [stat_all]. apply Forall_events_bind; [by repeat constructor|]. intros _.
  apply Forall_events_bind; [by destruct (stat_mtime w f); constructor|]. intros t.
  apply Forall_events_bind; [done|]. intros rest. constructor.
Qed.

Lemma fs_read_text_fs p : Forall (fun e => is_fs e = true) (events (fs_read_text w p)).
Proof.
  unfold fs_read_text. apply Forall_events_bind; [by repeat constructor|].
  intros _. by destruct (read_text w p); constructor.
Qed.

Lemma read_default_signature_fs :
  Forall (fun e => is_fs e = true) (events (read_default_signature w)).
Proof.
  unfold read_default_signature, fs_exists.
  apply Forall_events_bind; [apply Forall_events_bind; by repeat constructor|].
  intros ex. destruct ex; cbn [negb]; [|constructor].
  apply Forall_events_bind; [by repeat constructor|]. intros _.
  apply Forall_events_bind; [apply stat_all_fs|]. intros keyed.
  destruct (sorted_desc keyed) as [|[t f] l]; [constructor|apply fs_read_text_fs].
Qed.

Lemma read_signature_fs name :
  Forall (fun e => is_fs e = true) (events (read_signature w name)).
Proof.
  unfold read_signature, fs_exists.
  apply Forall_events_bind; [apply Forall_events_bind; by repeat constructor|].
  intros ex. destruct ex; [apply fs_read_text_fs|constructor].
Qed.

Lemma read_subject_fs arg :
  Forall (fun e => is_fs e = true) (events (read_subject w arg)).
Proof.
  destruct arg as [a|]; [|constructor]. unfold read_subject, fs_exists, fs_is_file.
  destruct (truthy a); cbn [negb]; [|constructor].
  apply Forall_events_bind; [apply Forall_events_bind; by repeat constructor|].
  intros ex. apply Forall_events_bind.
  { destruct ex; [|constructor]. apply Forall_events_bind; by repeat constructor. }
  intros isf. destruct isf; [|constructor].
  apply Forall_events_bind; [apply fs_read_text_fs|]. intros s. constructor.
Qed.

Lemma load_contacts_fs path sheet :
  Forall (fun e => is_fs e = true) (events (load_contacts w path sheet)).
Proof.
  unfold load_contacts.
  apply Forall_events_bind; [by repeat constructor|]. intros _.
  apply Forall_events_bind; [by destruct (load_workbook w path); constructor|].
  intros wb. destruct (select_sheet wb sheet); constructor.
Qed.

(** The signature block looks at files and may warn; it does nothing else. *)
Lemma main_signature_events sig_arg (p : event -> bool) :
  (forall e, is_fs e = true -> p e = false) ->
  (forall m, p (Stderr m) = false) ->
  List.filter p (events (main_signature w sig_arg)) = [].
Proof.
  intros Hfs Herr. unfold main_signature.
  assert (Htry : forall (m : M string) (h : string -> message),
    Forall (fun e => is_fs e = true) (events m) ->
    List.filter p (events (try_except m
      (fun e => bind (emit (Stderr (h e))) (fun _ => ret "")))) = []).
  { intros m h Hm. apply (filter_fs_events p _ Hfs) in Hm.
    destruct m as [t [s|[r|msg]]]; cbn [events fst] in *; simpl; try done.
    by rewrite List.filter_app, Hm; simpl; rewrite Herr. }
  destruct (String.eqb _ "auto"); [apply Htry, read_default_signature_fs|].
  destruct (String.eqb _ "none"); [done|].
  apply Htry, read_signature_fs.
Qed.

End FsEvents.

(** ** Signature resolver, further *)

Section SignatureMore.

Variable w : World.

Lemma insert_desc_nonempty x l : insert_desc x l <> [].
Proof. destruct l as [|y l]; simpl; [done|]. by destruct (_ <=? _)%Z. Qed.

(** The head of the sorted list is the first element with the greatest
    key. *)
Lemma sorted_desc_head l x rest :
  sorted_desc l = x :: rest ->
  exists pre post, l = (pre ++ x :: post)%list /\
    (forall y, In y pre -> (fst y < fst x)%Z) /\
    (forall y, In y post -> (fst y <= fst x)%Z).
Proof.
  revert x rest. induction l as [|a l IH]; intros x rest; [done|].
  unfold sorted_desc. simpl. fold (sorted_desc l).
  destruct (sorted_desc l) as [|y r] eqn:E.
  - destruct l as [|b l].
    + simpl. intros [= <- _]. exists [], []. by repeat split.
    + exfalso. unfold sorted_desc in E. simpl in E.
      by apply insert_desc_nonempty in E.
  - destruct (IH y r eq_refl) as (pre & post & -> & Hpre & Hpost).
    simpl. destruct (fst y <=? fst a)%Z eqn:Hle.
    + intros [= <- _]. exists [], (pre ++ y :: post)%list.
      apply Z.leb_le in Hle. split; [done|]. split; [done|].
      intros z [Hz|[<-|Hz]]%in_app_or; [|done|].
      * specialize (Hpre z Hz). lia.
      * specialize (Hpost z Hz). lia.
    + intros [= <- _]. exists (a :: pre), post.
      apply Z.leb_gt in Hle. split; [done|]. split; [|done].
      intros z [<-|Hz]; [done|]. by apply Hpre.
Qed.

Lemma stat_all_ok (mt : string -> Z) fs :
  (forall f, In f fs -> stat_mtime w f = IoOk (mt f)) ->
  result (stat_all w fs) = Ok (map (fun f => (mt f, f)) fs).
Proof.
  induction fs as [|f fs IH]; intros H; [done|].
  cbn [stat_all]. repeat (rewrite result_bind; cbn [emit ret raise result snd lift_io]).
  rewrite (H f) by by left. cbn [lift_io ret result snd].
  rewrite result_bind, IH; [done|]. intros f' Hf'. apply H. by right.
Qed.

(** X13: in a signature folder whose files can all be examined, the
    default signature is read from the file modified last, and among
    files modified at the same time from the one the folder lists
    first. *)
Theorem read_default_signature_newest (mt : string -> Z) :
  path_exists w (find_signature_dir w) = true ->
  glob_htm w (find_signature_dir w) <> [] ->
  (forall f, In f (glob_htm w (find_signature_dir w)) ->
             stat_mtime w f = IoOk (mt f)) ->
  exists pre f post,
    glob_htm w (find_signature_dir w) = (pre ++ f :: post)%list /\
    (forall f', In f' pre -> (mt f' < mt f)%Z) /\
    (forall f', In f' post -> (mt f' <= mt f)%Z) /\
    result (read_default_signature w) = result (lift_io (read_text w f)).
Proof.
  intros Hdir Hne Hstat.
  unfold read_default_signature, fs_exists.
  repeat (rewrite result_bind; cbn [emit ret raise result snd lift_io]).
  rewrite Hdir. cbn [negb].
  repeat (rewrite result_bind; cbn [emit ret raise result snd lift_io]).
  rewrite (stat_all_ok mt) by done.
  remember (glob_htm w (find_signature_dir w)) as fs eqn:Hfs. clear Hfs.
  destruct (sorted_desc (map (fun f => (mt f, f)) fs)) as [|[t f] rest] eqn:E.
  - destruct fs as [|f0 fs0]; [done|]. exfalso.
    unfold sorted_desc in E. simpl in E. by apply insert_desc_nonempty in E.
  - apply sorted_desc_head in E as (pre & post & Heq & Hpre & Hpost).
    apply map_eq_app in Heq as (pre' & tl & -> & <- & Htl).
    apply map_eq_cons in Htl as (f' & post' & -> & [= <- <-] & <-).
    exists pre', f', post'. split; [done|]. split; [|split].
    + intros g Hg. apply (Hpre (mt g, g)). by apply (in_map (fun f => (mt f, f))).
    + intros g Hg. apply (Hpost (mt g, g)). by apply (in_map (fun f => (mt f, f))).
    + unfold fs_read_text.
      by repeat (rewrite result_bind; cbn [emit ret raise result snd lift_io]).
Qed.

Lemma try_except_warned {A} (m : M A) (h : string -> M A) (a : A) :
  List.filter is_stderr (events m) = [] ->
  (forall msg, result (h msg) = Ok a) ->
  List.filter is_stderr (events (try_except m h)) <> [] ->
  result (try_except m h) = Ok a.
Proof.
  intros Hm Hh. destruct m as [t [x|[r|msg]]]; simpl in *; try done.
  intros _. specialize (Hh msg). by destruct (h msg).
Qed.

(** X14: a warning from the signature block always goes with the empty
    signature: a run that uses a signature has printed no warning about
    it. *)
Theorem main_signature_warning_means_empty sig_arg :
  List.filter is_stderr (events (main_signature w sig_arg)) <> [] ->
  result (main_signature w sig_arg) = Ok "".
Proof.
  unfold main_signature.
  destruct (String.eqb _ "auto").
  { apply try_except_warned; [|done].
    apply filter_fs_events; [by intros []|apply read_default_signature_fs]. }
  destruct (String.eqb _ "none"); [done|].
  apply try_except_warned; [|done].
  apply filter_fs_events; [by intros []|apply read_signature_fs].
Qed.

End SignatureMore.

Lemma read_default_signature_newest_witness :
  let host := signature_host [("alt.htm", 5%Z, "ALT"); ("neu.htm", 9%Z, "NEU");
                              ("kopie.htm", 9%Z, "KOPIE")] in
  let mt := fun f => if String.eqb f "alt.htm" then 5%Z else 9%Z in
  exists pre f post,
    glob_htm host (find_signature_dir host) = (pre ++ f :: post)%list /\
    (forall f', In f' pre -> (mt f' < mt f)%Z) /\
    (forall f', In f' post -> (mt f' <= mt f)%Z) /\
    result (read_default_signature host) = result (lift_io (read_text host f)).
Proof.
  intros host mt. apply (read_default_signature_newest host mt).
  - reflexivity.
  - discriminate.
  - intros f [<-|[<-|[<-|[]]]]; reflexivity.
Defined.

Lemma main_signature_warning_means_empty_witness :
  result (main_signature (sample_host [] []) "auto") = Ok "".
Proof.
  apply (main_signature_warning_means_empty (sample_host [] []) "auto").
  vm_compute. discriminate.
Defined.

(** ** Mail transport, further *)

Section TransportMore.

Variable w : World.

Lemma add_paths_result paths acc :
  (forall p, outlook_attach w p = IoOk tt) ->
  result (add_paths w paths acc) =
  Ok (acc ++ List.filter (fun p => path_exists w p && path_is_file w p)
                (map (mkpath w) paths))%list.
Proof.
  intros Hok. revert acc. induction paths as [|p paths IH]; intros acc.
  - simpl. by rewrite app_nil_r.
  - cbn [add_paths map List.filter]. unfold fs_exists, fs_is_file.
    unfold bind at 1 2 3. cbn [emit ret].
    destruct (path_exists w (mkpath w p)); cbn [app andb].
    + destruct (path_is_file w (mkpath w p)); cbn [app].
      * unfold bind, emit, lift_io. rewrite Hok. cbn [ret app].
        specialize (IH (acc ++ [mkpath w p])%list).
        destruct (add_paths w paths _) as [t o]. cbn [result snd] in *.
        by rewrite IH, <- app_assoc.
      * unfold bind, emit. specialize (IH acc).
        destruct (add_paths w paths acc) as [t o]. by cbn [result snd] in *.
    + unfold bind, emit. specialize (IH acc).
      destruct (add_paths w paths acc) as [t o]. by cbn [result snd] in *.
Qed.

Lemma add_paths_warnings paths acc :
  (forall p, outlook_attach w p = IoOk tt) ->
  List.filter is_stderr (events (add_paths w paths acc)) =
  map (fun p => Stderr (WarnAttachment p))
    (List.filter (fun p => negb (path_exists w (mkpath w p)
                                 && path_is_file w (mkpath w p))) paths).
Proof.
  intros Hok. revert acc. induction paths as [|p paths IH]; intros acc; [done|].
  cbn [add_paths List.filter]. unfold fs_exists, fs_is_file.
  unfold bind at 1 2 3. cbn [emit ret].
  destruct (path_exists w (mkpath w p)); cbn [app andb negb].
  - destruct (path_is_file w (mkpath w p)); cbn [app negb].
    + unfold bind, emit, lift_io. rewrite Hok. cbn [ret app].
      specialize (IH (acc ++ [mkpath w p])%list).
      destruct (add_paths w paths _) as [t o]. cbn [events fst] in *.
      simpl. done.
    + unfold bind, emit. specialize (IH acc).
      destruct (add_paths w paths acc) as [t o]. cbn [events fst] in *.
      simpl. by rewrite IH.
  - unfold bind, emit. specialize (IH acc).
    destruct (add_paths w paths acc) as [t o]. cbn [events fst] in *.
    simpl. by rewrite IH.
Qed.

(** X15: when Outlook accepts every attachment, the mail gets exactly
    the parsed paths that exist as files, in their order, and each other
    path is answered with one warning, in order too. *)
Theorem add_attachments_existing_files field_value :
  (forall p, outlook_attach w p = IoOk tt) ->
  result (add_attachments w field_value) =
    Ok (List.filter (fun p => path_exists w p && path_is_file w p)
          (map (mkpath w) (parse_list_field field_value))) /\
  List.filter is_stderr (events (add_attachments w field_value)) =
    map (fun p => Stderr (WarnAttachment p))
      (List.filter (fun p => negb (path_exists w (mkpath w p)
                                   && path_is_file w (mkpath w p)))
         (parse_list_field field_value)).
Proof.
  intros Hok. unfold add_attachments. split.
  - by rewrite add_paths_result.
  - by apply add_paths_warnings.
Qed.

Lemma add_paths_no_submit_filter paths acc :
  List.filter is_submit (events (add_paths w paths acc)) = [].
Proof.
  destruct (List.filter _ _) as [|e l] eqn:E; [done|].
  assert (Hin : In e (List.filter is_submit (events (add_paths w paths acc)))).
  { rewrite E. by left. }
  apply filter_In in Hin as [Hin He].
  destruct e; try done.
  - by apply (add_paths_no_submit w paths acc m) in Hin.
  - by apply (add_paths_no_submit w paths acc m) in Hin.
Qed.

(** At most one submission, and of the kind the display flag asks for. *)
Lemma send_outlook_submit_kind to_addr subject html cc bcc attachments display :
  length (List.filter is_submit
            (events (send_outlook w to_addr subject html cc bcc attachments display)))
    <= 1 /\
  (forall m,
     In (ComSend m)
        (events (send_outlook w to_addr subject html cc bcc attachments display)) ->
     display = false) /\
  (forall m,
     In (ComDisplay m)
        (events (send_outlook w to_addr subject html cc bcc attachments display)) ->
     display = true).
Proof.
  unfold send_outlook. unfold bind at 1 2, emit at 1, lift_io at 1.
  destruct (outlook_create w) as [u|msg]; cbn [ret raise app].
  2:{ split; [simpl; lia|]. split; intros m [?|[]]; done. }
  set (atts := if truthy attachments then _ else _).
  assert (Hatts : List.filter is_submit (events atts) = []).
  { unfold atts, add_attachments.
    destruct (truthy attachments); [apply add_paths_no_submit_filter|done]. }
  assert (Hno : forall e, In e (events atts) -> is_submit e = false).
  { intros e He. destruct (is_submit e) eqn:Hs; [|done].
    assert (In e (List.filter is_submit (events atts))) as Hin
      by by apply filter_In.
    by rewrite Hatts in Hin. }
  destruct atts as [t [files|e]]; cbn [events fst] in *.
  - unfold bind, emit, lift_io.
    destruct display; destruct (outlook_submit w _ _); cbn [ret raise app];
      rewrite ?app_nil_r; cbn [events fst List.filter is_submit];
      rewrite List.filter_app, Hatts; (split; [simpl; lia|]);
      split; intros m [?|[Hin|[?|[]]]%in_app_or]; try done;
      by apply Hno in Hin.
  - unfold bind. cbn [events fst List.filter is_submit]. rewrite Hatts.
    split; [simpl; lia|].
    split; intros m [?|Hin]; try done; by apply Hno in Hin.
Qed.

(** X16: [send_outlook] hands at most one mail to Outlook, and never in
    the wrong way: with the display flag set nothing is sent directly, and
    without it nothing is merely displayed. *)
Theorem send_outlook_display_flag to_addr subject html cc bcc attachments display :
  length (List.filter is_submit
            (events (send_outlook w to_addr subject html cc bcc attachments display)))
    <= 1 /\
  List.filter (wrong_submit display)
    (events (send_outlook w to_addr subject html cc bcc attachments display)) = [].
Proof.
  destruct (send_outlook_submit_kind to_addr subject html cc bcc attachments display)
    as (Hone & Hsend & Hdisp).
  split; [done|]. clear Hone.
  destruct (List.filter (wrong_submit display) _) as [|e l] eqn:E; [done|].
  assert (Hin : In e (List.filter (wrong_submit display)
            (events (send_outlook w to_addr subject html cc bcc attachments display)))).
  { rewrite E. by left. }
  apply filter_In in Hin as [Hin He].
  destruct e as [| | | | | | | | | |m|m|]; try done; simpl in He.
  - apply Hsend in Hin. congruence.
  - apply Hdisp in Hin. rewrite Hin in He. done.
Qed.

End TransportMore.

Lemma add_attachments_existing_files_witness :
  result (add_attachments (sample_host [("/work/a.pdf", "")] [])
            "/work/a.pdf; /work/b.pdf") = Ok ["/work/a.pdf"].
Proof.
  apply (add_attachments_existing_files (sample_host [("/work/a.pdf", "")] [])
           "/work/a.pdf; /work/b.pdf").
  reflexivity.
Defined.

(** ** Dispatcher, further *)

Section DispatcherMore.

Variable w : World.
Variable args : Args.
Variable template_path global_subject signature_html : string.
Variable total : nat.


Lemma render_html_no_exit tp ctx sig r :
  result (render_html w tp ctx sig) <> Raise (SystemExit r).
Proof.
  unfold render_html, fs_read_text, re_sub_signature.
  unfold bind, emit, lift_io, ret, raise, result.
  destruct (read_text w _) as [text|msg]; simpl; [|done].
  destruct (jinja_render w text ctx) as [html|msg]; simpl; [|done].
  destruct (truthy sig); [|done].
  destruct (_ || _); [|done].
  destruct (contains "\" sig); [|done].
  by destruct (re_template w sig).
Qed.

Lemma add_paths_no_exit paths acc r :
  result (add_paths w paths acc) <> Raise (SystemExit r).
Proof.
  revert acc. induction paths as [|p paths IH]; intros acc; [done|].
  cbn [add_paths]. unfold fs_exists, fs_is_file.
  unfold bind at 1 2 3. cbn [emit ret].
  destruct (path_exists w (mkpath w p)); cbn [app].
  - destruct (path_is_file w (mkpath w p)); cbn [app].
    + unfold bind, emit, lift_io.
      destruct (outlook_attach w (mkpath w p)); cbn [ret raise app]; [|done].
      specialize (IH (acc ++ [mkpath w p])%list).
      destruct (add_paths w paths _) as [t o]. by cbn [result snd] in *.
    + unfold bind, emit. specialize (IH acc).
      destruct (add_paths w paths acc) as [t o]. by cbn [result snd] in *.
  - unfold bind, emit. specialize (IH acc).
    destruct (add_paths w paths acc) as [t o]. by cbn [result snd] in *.
Qed.

Lemma send_outlook_no_exit to_addr subject html cc bcc attachments display r :
  result (send_outlook w to_addr subject html cc bcc attachments display)
  <> Raise (SystemExit r).
Proof.
  unfold send_outlook. unfold bind at 1 2, emit at 1, lift_io at 1.
  destruct (outlook_create w) as [u|msg]; cbn [ret raise app]; [|done].
  set (atts := if truthy attachments then _ else _).
  assert (Hatts : result atts <> Raise (SystemExit r)).
  { unfold atts, add_attachments.
    destruct (truthy attachments); [apply add_paths_no_exit|done]. }
  destruct atts as [t [files|e]]; cbn [result snd] in *.
  - unfold bind, emit, lift_io.
    destruct display; destruct (outlook_submit w _ _); simpl; done.
  - unfold bind. simpl. intros [= ->]. by apply Hatts.
Qed.

(** What one turn of the loop does to the counters, when it ends. *)
Lemma main_row_counters i c sent failed :
  match result (main_row w args template_path global_subject signature_html total i c (sent, failed)) with
  | Ok (s, f) =>
      if arg_dry args then (s, f) = (sent, failed)
      else (s + f = sent + failed + (if has_email c then 1 else 0))%nat
  | Raise (SystemExit _) => False
  | Raise (PyException _) => True
  end.
Proof.
  unfold main_row, has_email.
  destruct (truthy (rec_get c "email" "")); cbn [negb].
  2:{ cbn [ret result snd]. destruct (arg_dry args); [done|lia]. }
  destruct (negb (truthy _) && negb (arg_dry args)) eqn:Hskip.
  { cbn. apply andb_true_iff in Hskip as [_ Hd]. apply negb_true_iff in Hd.
    rewrite Hd. lia. }
  rewrite result_bind.
  pose proof (render_html_no_exit template_path (build_context c) signature_html) as Hr.
  destruct (result (render_html _ _ _ _)) as [html|[r|msg]]; [| by apply (Hr r) |done].
  destruct (arg_dry args); [done|].
  rewrite result_bind.
  pose proof (send_outlook_no_exit (rec_get c "email" "")
    (por (strip (rec_get c "betreff" "")) global_subject) html
    (rec_get c "cc" "") (rec_get c "bcc" "")
    (por (rec_get c "anhangpfad" "") (rec_get c "anhang" ""))
    (arg_display args)) as Hs.
  destruct (send_outlook _ _ _ _ _ _ _ _) as [t [[]|[r|msg]]];
    cbn [result snd] in Hs.
  - cbn. lia.
  - by destruct (Hs r).
  - cbn. lia.
Qed.

(** The counters over the whole loop; the loop never ends the process on
    its own. *)
Lemma main_loop_counters i contacts sent failed :
  match result (main_loop w args template_path global_subject signature_html
                  total i contacts (sent, failed)) with
  | Ok (s, f) =>
      if arg_dry args then (s, f) = (sent, failed)
      else (s + f = sent + failed + length (List.filter has_email contacts))%nat
  | Raise (SystemExit _) => False
  | Raise (PyException _) => True
  end.
Proof.
  revert i sent failed. induction contacts as [|c rest IH]; intros i sent failed.
  - cbn. destruct (arg_dry args); [done|lia].
  - cbn [main_loop]. rewrite result_bind.
    pose proof (main_row_counters i c sent failed) as Hrow.
    destruct (result (main_row _ _ _ _ _ _ _ _ _)) as [[s1 f1]|[r|msg]];
      [|done|done].
    specialize (IH (S i) s1 f1).
    destruct (result (main_loop _ _ _ _ _ _ _ _ _)) as [[s f]|[r|msg]];
      [|done|done].
    cbn [List.filter]. destruct (arg_dry args).
    + congruence.
    + destruct (has_email c); cbn [length]; lia.
Qed.

Lemma main_loop_no_exit i contacts st r :
  result (main_loop w args template_path global_subject signature_html
            total i contacts st) <> Raise (SystemExit r).
Proof.
  destruct st as [sent failed].
  pose proof (main_loop_counters i contacts sent failed) as H.
  intros E. by rewrite E in H.
Qed.


(** X18: a template that cannot be read stops the whole loop at the
    first row that needs it: the error is raised out of the loop and the
    rows behind are not processed. *)
Theorem main_loop_stops_at_render_failure i c rest st msg :
  truthy (rec_get c "email" "") = true ->
  truthy (por (strip (rec_get c "betreff" "")) global_subject) || arg_dry args = true ->
  read_text w (mkpath w template_path) = IoFail msg ->
  main_loop w args template_path global_subject signature_html total i (c :: rest) st =
    ([FsReadText (mkpath w template_path)], Raise (PyException msg)).
Proof.
  intros Hemail Hsubj Hread. destruct st as [sent failed].
  cbn [main_loop]. unfold main_row. rewrite Hemail. cbn [negb].
  assert (negb (truthy (por (strip (rec_get c "betreff" "")) global_subject))
          && negb (arg_dry args) = false) as ->.
  { apply orb_true_iff in Hsubj as [->| ->]; [done|]. by rewrite andb_false_r. }
  unfold render_html, fs_read_text. rewrite Hread. done.
Qed.

End DispatcherMore.


Lemma main_loop_stops_at_render_failure_witness :
  let c : record := {[ "email" := "a@x.com"; "betreff" := "Angebot" ]} in
  main_loop (sample_host [] []) (sample_args false) "/work/t.html" "" "" 2 1
    [c; c] (0, 0)%nat
  = ([FsReadText "/work/t.html"], Raise (PyException "/work/t.html")).
Proof.
  intros c.
  apply (main_loop_stops_at_render_failure (sample_host [] []) (sample_args false)
           "/work/t.html" "" "" 2 1 c [c] (0, 0)%nat "/work/t.html");
    reflexivity.
Defined.

Section Isolation.

Variable w : World.
Variable args : Args.
Variable template_path global_subject signature_html : string.
Variable total : nat.



End Isolation.


(** ** The whole run *)

Section WholeRun.

Variable w : World.

(** Either [main] never reaches Outlook, or everything it hands to
    Outlook comes from its loop, and then it does not end with
    [SystemExit]. *)
Lemma main_transport_events args :
  List.filter is_transport (events (main w args)) = [] \/
  exists template_path global_subject signature_html contacts,
    List.filter is_transport (events (main w args)) =
    List.filter is_transport
      (events (main_loop w args template_path global_subject signature_html
                 (length contacts) 1 contacts (0, 0)%nat)) /\
    forall r, result (main w args) <> Raise (SystemExit r).
Proof.
  unfold main.
  set (excel_path := resolve_path w (Some (arg_excel args)) "Kundenliste.xlsx").
  set (template_path := resolve_path w (Some (arg_template args)) "mail_template.html").
  set (subj := match arg_subject args with
               | Some s => if truthy s then read_subject w (Some s) else ret ""
               | None => ret "" end).
  assert (Hsubj : List.filter is_transport (events subj) = []).
  { apply filter_fs_events; [by intros []|]. unfold subj.
    destruct (arg_subject args) as [s|]; [|constructor].
    destruct (truthy s); [apply read_subject_fs|constructor]. }
  pose proof (filter_fs_events is_transport _ (ltac:(by intros []))
                (load_contacts_fs w excel_path (arg_sheet args))) as Hload.
  pose proof (fun sig => main_signature_events w sig is_transport
                (ltac:(by intros [])) (ltac:(done))) as Hsig.
  unfold fs_exists, bind, emit, ret, raise.
  destruct (path_exists w excel_path); cbn [negb app events result fst snd];
    [|by left].
  destruct (path_exists w template_path); cbn [negb app events result fst snd];
    [|by left].
  destruct subj as [t1 [gs|e1]]; cbn [negb app events result fst snd] in *.
  2:{ left. cbn [List.filter is_transport]. done. }
  destruct (load_contacts w excel_path (arg_sheet args)) as [t2 [contacts|e2]];
    cbn [negb app events result fst snd] in *.
  2:{ left. cbn [List.filter is_transport]. by rewrite List.filter_app, Hsubj. }
  destruct contacts as [|c cs]; cbn [negb app events result fst snd].
  { left. cbn [List.filter is_transport].
    by rewrite !List.filter_app, Hsubj, Hload. }
  specialize (Hsig (arg_sig args)).
  destruct (main_signature w (arg_sig args)) as [t3 [sig|e3]];
    cbn [negb app events result fst snd] in *.
  2:{ left. cbn [List.filter is_transport].
      by rewrite !List.filter_app, Hsubj, Hload, Hsig. }
  right. exists template_path, gs, sig, (c :: cs).
  pose proof (main_loop_no_exit w args template_path gs sig (length (c :: cs)) 1
                (c :: cs) (0, 0)%nat) as Hexit.
  destruct (main_loop w args template_path gs sig _ 1 (c :: cs) (0, 0)%nat)
    as [t4 [st|e4]]; cbn [negb app events result fst snd] in *.
  - split.
    + destruct (arg_dry args); cbn [negb app events result fst snd];
        cbn [List.filter is_transport];
        rewrite !List.filter_app, Hsubj, Hload, Hsig;
        cbn [List.filter is_transport app];
        rewrite ?List.filter_app, ?app_nil_r; done.
    + by destruct (arg_dry args).
  - split.
    + cbn [List.filter is_transport].
      by rewrite !List.filter_app, Hsubj, Hload, Hsig.
    + intros r [= ->]. by apply (Hexit r).
Qed.

(** X20: when [main] ends with [SystemExit] -- a missing file, an unknown
    sheet, no contacts -- it has handed nothing to Outlook. *)
Theorem main_exit_before_transport args r :
  result (main w args) = Raise (SystemExit r) ->
  List.filter is_transport (events (main w args)) = [].
Proof.
  intros Hexit.
  destruct (main_transport_events args) as [H|(tp & gs & sig & cs & _ & H)]; [done|].
  by destruct (H r).
Qed.

(** X21: a dry run of the whole program, from the first line to the
    last, never reaches Outlook. *)
Theorem main_dry_run_no_transport args :
  arg_dry args = true ->
  List.filter is_transport (events (main w args)) = [].
Proof.
  intros Hdry.
  destruct (main_transport_events args) as [H|(tp & gs & sig & cs & H & _)]; [done|].
  rewrite H. by apply main_loop_dry_no_transport.
Qed.




End WholeRun.

Lemma main_exit_before_transport_witness :
  List.filter is_transport (events (main (sample_host [] []) (sample_args false))) = [].
Proof.
  apply (main_exit_before_transport (sample_host [] []) (sample_args false)
           (ExcelNotFound "/work/Kundenliste.xlsx")).
  reflexivity.
Defined.

Lemma main_dry_run_no_transport_witness :
  List.filter is_transport
    (events (main (sample_host [("/work/Kundenliste.xlsx", "");
                                ("/work/mail_template.html", "<p>Hallo</p>")]
                     [("Kunden", [[CStr "Email"]; [CStr "a@x.com"]])])
               (sample_args true))) = [].
Proof. by apply main_dry_run_no_transport. Defined.


(** ** Render context *)

Section Context.

Implicit Types (c ctx acc : record).

(** What is in the context before the columns are merged stays as it is. *)
Lemma merge_columns_keeps c ctx K v :
  ctx !! K = Some v -> merge_columns c ctx !! K = Some v.
Proof.
  intros HK. unfold merge_columns.
  apply (map_fold_weak_ind (fun acc _ => acc !! K = Some v)); [done|].
  intros i x m r _ Hr. case_bool_decide as Hin; [done|].
  rewrite lookup_insert_ne; [done|]. intros ->. apply Hin.
  apply elem_of_map. exists K. split; [done|]. apply elem_of_dom. by exists v.
Qed.

Lemma base_context_lookup c :
  base_context c !! "Email" = Some (rec_get c "email" "") /\
  base_context c !! "Anrede" = Some (rec_get c "anrede" "") /\
  base_context c !! "Vorname" = Some (rec_get c "vorname" "") /\
  base_context c !! "Nachname" = Some (rec_get c "nachname" "") /\
  base_context c !! "Firma" = Some (rec_get c "firma" "") /\
  base_context c !! "Titel" = Some (rec_get c "titel" "") /\
  base_context c !! "AnredeBrief" =
    Some (build_anrede_brief (rec_get c "anrede" "") (rec_get c "titel" "")
            (rec_get c "vorname" "") (rec_get c "nachname" "")).
Proof.
  unfold base_context. cbv zeta. unfold rec_get at 1 2 3 4.
  repeat split; by simplify_map_eq.
Qed.

(** X23: the fields [main] computes are never overwritten by spreadsheet
    columns, however they are named: the context keeps "Email" and the
    greeting under "AnredeBrief" as computed. *)
Theorem build_context_computed_fields c :
  (forall K v, base_context c !! K = Some v -> build_context c !! K = Some v) /\
  build_context c !! "Email" = Some (rec_get c "email" "") /\
  build_context c !! "AnredeBrief" =
    Some (build_anrede_brief (rec_get c "anrede" "") (rec_get c "titel" "")
            (rec_get c "vorname" "") (rec_get c "nachname" "")).
Proof.
  destruct (base_context_lookup c) as (He & _ & _ & _ & _ & _ & Hb).
  unfold build_context.
  split; [intros K v; apply merge_columns_keeps|].
  split; by apply merge_columns_keeps.
Qed.

Lemma base_context_names c :
  set_map lower (dom (base_context c)) = context_names.
Proof.
  unfold base_context. cbv zeta.
  rewrite !dom_insert_L, dom_empty_L.
  rewrite !set_map_union_L, !set_map_singleton_L, set_map_empty.
  unfold context_names. set_solver.
Qed.

Lemma merge_columns_lookup c ctx :
  (forall k, is_Some (c !! k) -> lower k = k) ->
  forall K,
    merge_columns c ctx !! K =
    match ctx !! K with
    | Some v => Some v
    | None =>
        if bool_decide (lower K ∈ (set_map lower (dom ctx) : gset string))
        then None else c !! K
    end.
Proof.
  unfold merge_columns.
  apply (map_fold_weak_ind (fun acc m =>
    (forall k, is_Some (m !! k) -> lower k = k) ->
    forall K, acc !! K =
      match ctx !! K with
      | Some v => Some v
      | None =>
          if bool_decide (lower K ∈ (set_map lower (dom ctx) : gset string))
          then None else m !! K
      end)).
  - intros _ K. rewrite lookup_empty. destruct (ctx !! K); [done|].
    by case_bool_decide.
  - intros i x m r Hi IH Hlow.
    assert (Hlow_m : forall k, is_Some (m !! k) -> lower k = k).
    { intros k Hk. apply Hlow. rewrite lookup_insert_is_Some.
      destruct (decide (i = k)); [by left|by right]. }
    assert (Hii : lower i = i).
    { apply Hlow. rewrite lookup_insert_eq. by eexists. }
    specialize (IH Hlow_m).
    assert (Hiff : lower i ∈ (set_map lower (dom r) : gset string) <->
                   lower i ∈ (set_map lower (dom ctx) : gset string)).
    { rewrite !elem_of_map. split.
      - intros (K & HKi & HK). apply elem_of_dom in HK as [v HK].
        rewrite IH in HK. destruct (ctx !! K) as [v'|] eqn:EK.
        + exists K. split; [done|]. apply elem_of_dom. by exists v'.
        + case_bool_decide as HL; [done|].
          assert (lower K = K) as HKK by (apply Hlow_m; by exists v).
          rewrite HKK, Hii in HKi. subst K. by rewrite Hi in HK.
      - intros (K & HKi & HK). exists K. split; [done|].
        apply elem_of_dom in HK as [v HK]. apply elem_of_dom. exists v.
        by rewrite IH, HK. }
    intros K. case_bool_decide as Hin.
    + apply Hiff in Hin. rewrite IH. destruct (ctx !! K) as [v|]; [done|].
      case_bool_decide as HL; [done|].
      rewrite lookup_insert_ne; [done|]. intros ->. by apply HL.
    + assert (Hnot : lower i ∉ (set_map lower (dom ctx) : gset string))
        by (by rewrite <- Hiff).
      destruct (decide (i = K)) as [<-|Hne].
      * rewrite !lookup_insert_eq.
        destruct (ctx !! i) as [v|] eqn:Ei.
        { exfalso. apply Hnot. apply elem_of_map. exists i. split; [done|].
          apply elem_of_dom. by exists v. }
        by rewrite bool_decide_eq_false_2.
      * rewrite !lookup_insert_ne by done. apply IH.
Qed.

(** X24: for a record with lower-case keys (as the loader builds them)
    the render context is the computed fields, plus every column whose
    name is not one of the seven context names in lower case, under its
    own key; the columns with those seven names appear under their
    capitalised keys only. *)
Theorem build_context_columns c :
  (forall k, is_Some (c !! k) -> lower k = k) ->
  forall K,
    build_context c !! K =
    match base_context c !! K with
    | Some v => Some v
    | None => if bool_decide (lower K ∈ context_names) then None else c !! K
    end.
Proof.
  intros Hlow K. unfold build_context.
  by rewrite (merge_columns_lookup c (base_context c) Hlow), base_context_names.
Qed.

End Context.

Lemma build_context_computed_fields_witness :
  let c : record := {[ "email" := "a@x.com"; "firma" := "ACME";
                       "anredebrief" := "Hi" ]} in
  build_context c !! "Firma" = Some "ACME" /\
  build_context c !! "AnredeBrief" = Some "Guten Tag".
Proof.
  intros c. destruct (build_context_computed_fields c) as (H & _ & Hb).
  split; [by apply H|exact Hb].
Defined.

Lemma build_context_columns_witness :
  let c : record := {[ "email" := "a@x.com"; "ort" := "Bonn" ]} in
  build_context c !! "ort" = Some "Bonn" /\ build_context c !! "email" = None.
Proof.
  intros c.
  assert (Hlow : forall k, is_Some (c !! k) -> lower k = k).
  { intros k [v Hk]. unfold c in Hk.
    apply lookup_insert_Some in Hk as [[<- _]|[_ Hk]]; [done|].
    apply lookup_singleton_Some in Hk as [<- _]. done. }
  split.
  - exact (build_context_columns c Hlow "ort").
  - exact (build_context_columns c Hlow "email").
Defined.

(** The newest of three signatures; of the two modified last, the one
    listed first. *)
Example read_default_signature_example :
  read_default_signature
    (signature_host [("alt.htm", 5%Z, "ALT"); ("neu.htm", 9%Z, "NEU");
                     ("kopie.htm", 9%Z, "KOPIE")])
  = ([FsExists "/appdata/Microsoft/Signatures";
      FsGlob "/appdata/Microsoft/Signatures";
      FsStat "alt.htm"; FsStat "neu.htm"; FsStat "kopie.htm";
      FsReadText "neu.htm"],
     Ok "NEU").
Proof. by vm_compute. Qed.
